(** * Graph Generator: a shallow embedding of [graphGenerator/main.py]

    The program loads a YAML configuration and one or two CSV tables and
    renders every configured chart whose x column the table has.  All of
    its behaviour is effects: calls into [matplotlib.pyplot], prints,
    [sys.exit], and exceptions.  The embedding therefore runs every
    function in a small writer-and-error monad: a run yields the list of
    effects it performed, in order, and an outcome that is a normal
    return, a raised exception, or a [sys.exit].

    What the file system, the YAML parser, pandas and the image writer
    answer is not decided by the program; it is supplied by a [World]
    record over which every theorem quantifies. *)

From Stdlib Require Import String Ascii List ZArith QArith Bool Lia.
Import ListNotations.
Local Open Scope string_scope.
Local Open Scope list_scope.

(** ** Python exceptions

    Only subclasses of [Exception] are modelled: [except Exception]
    catches every [exn].  [SystemExit] is not an [Exception]; it is a
    separate outcome below. *)

Inductive exn_class : Set :=
| FileNotFoundError
| PermissionError
| IsADirectoryError
| OSError            (* any other OSError *)
| YAMLError
| EmptyDataError
| ParserError
| KeyError
| TypeError
| ValueError.

Record exn : Set := mkExn { cls : exn_class; detail : string }.

(** What an external call answers: a value or a raised exception. *)
Inductive attempt (A : Type) : Type :=
| Success (a : A)
| Failure (e : exn).
Arguments Success {A} a.
Arguments Failure {A} e.

(** ** Data model *)

Inductive scalar : Set :=
| Num (q : Q)
| Text (s : string).

Definition Series := list scalar.

(** A [pd.DataFrame], as far as the program looks at it: named columns. *)
Definition DataFrame := list (string * Series).

Definition df_columns (df : DataFrame) : list string := map fst df.

(** [name in df.columns] *)
Definition in_columns (name : string) (df : DataFrame) : bool :=
  existsb (String.eqb name) (df_columns df).

Fixpoint df_lookup (df : DataFrame) (name : string) : option Series :=
  match df with
  | [] => None
  | (c, s) :: rest => if String.eqb name c then Some s else df_lookup rest name
  end.

(** One entry of [config['graphs']]: a dict.  Every key may be absent
    ([None]); the values carry the types the configuration format gives
    them. *)
Record ChartSpec : Set := mkSpec {
  kind : option string;
  x_column : option string;
  y_columns : option (list string);
  title : option string;
  x_label : option string;
  y_label : option string;
  figure_size : option (list Q);
  output_file : option string
}.

(** What [yaml.safe_load] can return: [None] for an empty document, a
    scalar, a sequence, or a mapping, of which the program reads the key
    [graphs] only. *)
Inductive document : Set :=
| DNull
| DScalar (text : string)
| DSequence
| DMapping (graphs : option (list ChartSpec)).

(** ** Effects *)

Inductive event : Set :=
| Call (df : DataFrame) (gc : ChartSpec)   (* entry into generate_graph *)
| Clf
| Figure (figsize : list Q)
| Plot (x y : Series) (marker : option string) (label : string)
| Scatter (x y : Series) (label : string)
| Bar (x y : Series) (label : string)
| Title (s : string)
| Xlabel (s : string)
| Ylabel (s : string)
| Legend
| Grid
| TightLayout
| Makedirs (dir : string) (failed : option exn)
| Savefig (path : string) (failed : option exn)
| Close
| Print (msg : string).

Inductive result (A : Type) : Type :=
| Ret (a : A)
| Raise (e : exn)
| Exit (code : Z).
Arguments Ret {A} a.
Arguments Raise {A} e.
Arguments Exit {A} code.

Record Run (A : Type) : Type := mkRun {
  trace : list event;
  outcome : result A
}.
Arguments mkRun {A} trace outcome.
Arguments trace {A} r.
Arguments outcome {A} r.

Definition ret {A} (a : A) : Run A := mkRun [] (Ret a).

Definition bind {A B} (m : Run A) (f : A -> Run B) : Run B :=
  match outcome m with
  | Ret a => let r := f a in mkRun (trace m ++ trace r) (outcome r)
  | Raise e => mkRun (trace m) (Raise e)
  | Exit c => mkRun (trace m) (Exit c)
  end.

Notation "x <- m ;; k" := (bind m (fun x => k))
  (at level 61, m at next level, right associativity).
Notation "m ;; k" := (bind m (fun _ => k))
  (at level 61, right associativity).

Definition emit (e : event) : Run unit := mkRun [e] (Ret tt).
Definition raise {A} (e : exn) : Run A := mkRun [] (Raise e).
Definition sys_exit {A} (code : Z) : Run A := mkRun [] (Exit code).
Definition print (msg : string) : Run unit := emit (Print msg).

(** [try: m  except Exception as e: h e] *)
Definition try_except {A} (m : Run A) (h : exn -> Run A) : Run A :=
  match outcome m with
  | Raise e => let r := h e in mkRun (trace m ++ trace r) (outcome r)
  | _ => m
  end.

(** [try: m  finally: fin] *)
Definition try_finally {A} (m : Run A) (fin : Run unit) : Run A :=
  mkRun (trace m ++ trace fin)
        (match outcome fin with
         | Ret _ => outcome m
         | Raise e => Raise e
         | Exit c => Exit c
         end).

Definition lift {A} (a : attempt A) : Run A :=
  match a with
  | Success v => ret v
  | Failure e => raise e
  end.

(** [d[key]] on a dict *)
Definition getitem {A} (key : string) (v : option A) : Run A :=
  match v with
  | Some a => ret a
  | None => raise (mkExn KeyError ("'" ++ key ++ "'"))
  end.

(** [df[name]] *)
Definition df_getitem (df : DataFrame) (name : string) : Run Series :=
  match df_lookup df name with
  | Some s => ret s
  | None => raise (mkExn KeyError ("'" ++ name ++ "'"))
  end.

(** [d.get(key, default)]; Python evaluates [default] before the call. *)
Definition dict_get {A} (v : option A) (default : A) : A :=
  match v with
  | Some a => a
  | None => default
  end.

(** [for x in xs: body x] *)
Fixpoint for_each {A} (xs : list A) (body : A -> Run unit) : Run unit :=
  match xs with
  | [] => ret tt
  | x :: rest => body x ;; for_each rest body
  end.

(** ** [os.path.dirname] (POSIX) *)

Definition is_sep (c : ascii) : bool := Ascii.eqb c "/"%char.

Fixpoint has_sep (p : string) : bool :=
  match p with
  | EmptyString => false
  | String c r => is_sep c || has_sep r
  end.

(** [p[:p.rfind('/') + 1]] *)
Fixpoint upto_last_sep (p : string) : string :=
  match p with
  | EmptyString => EmptyString
  | String c r => if has_sep p then String c (upto_last_sep r) else EmptyString
  end.

Fixpoint all_sep (p : string) : bool :=
  match p with
  | EmptyString => true
  | String c r => is_sep c && all_sep r
  end.

(** [p.rstrip('/')] *)
Fixpoint rstrip_sep (p : string) : string :=
  match p with
  | EmptyString => EmptyString
  | String c r => if all_sep p then EmptyString else String c (rstrip_sep r)
  end.

Definition nonempty (s : string) : bool :=
  match s with
  | EmptyString => false
  | String _ _ => true
  end.

Definition dirname (p : string) : string :=
  let head := upto_last_sep p in
  if nonempty head && negb (all_sep head) then rstrip_sep head else head.

(** ** The environment

    What the files and the libraries answer.  The calls that are given a
    path, a size or the table's data can raise; [plt.clf], [plt.title],
    [plt.xlabel], [plt.ylabel], [plt.legend], [plt.grid],
    [plt.tight_layout] and [plt.close] are taken to return. *)

Record World : Type := mkWorld {
  open_file : string -> attempt string;        (* open(path, 'r') *)
  yaml_safe_load : string -> attempt document; (* yaml.safe_load *)
  pd_read_csv : string -> attempt DataFrame;   (* pd.read_csv *)
  os_makedirs : string -> option exn;          (* os.makedirs(d, exist_ok=True) *)
  plt_savefig : string -> option exn;          (* plt.savefig *)
  plt_figure : list Q -> option exn;           (* plt.figure(figsize=...) *)
  plt_draw : event -> option exn               (* plt.plot, plt.scatter, plt.bar *)
}.

Section Program.

Variable w : World.

(** *** [load_config] *)

Definition read_config (config_path : string) : Run document :=
  file <- lift (open_file w config_path) ;;
  lift (yaml_safe_load w file).

Definition load_config (config_path : string) : Run document :=
  try_except (read_config config_path)
    (fun e =>
       match cls e with
       | FileNotFoundError =>
           print ("Error: Config file '" ++ config_path ++ "' not found!") ;;
           sys_exit 1
       | YAMLError =>
           print ("Error parsing config file: " ++ detail e) ;;
           sys_exit 1
       | _ => raise e
       end).

(** *** [generate_graph] *)

Definition makedirs (dir : string) : Run unit :=
  emit (Makedirs dir (os_makedirs w dir)) ;;
  match os_makedirs w dir with
  | None => ret tt
  | Some e => raise e
  end.

Definition savefig (path : string) : Run unit :=
  emit (Savefig path (plt_savefig w path)) ;;
  match plt_savefig w path with
  | None => ret tt
  | Some e => raise e
  end.

(** [plt.figure(figsize=tuple(sz))]: the call is made, and raises when
    pyplot rejects the size. *)
Definition figure (sz : list Q) : Run unit :=
  emit (Figure sz) ;;
  match plt_figure w sz with
  | None => ret tt
  | Some e => raise e
  end.

(** One of [plt.plot], [plt.scatter], [plt.bar], given as the effect it
    has: the call is made, and raises when pyplot rejects the data. *)
Definition draw (call : event) : Run unit :=
  emit call ;;
  match plt_draw w call with
  | None => ret tt
  | Some e => raise e
  end.

(** Lines 48 and 49. *)
Definition size_figure (gc : ChartSpec) : Run unit :=
  match figure_size gc with
  | Some sz => figure sz
  | None => ret tt
  end.

(** The loop over [y_columns].  It answers [true] when it ran to its
    end and [false] when the [return] of the unsupported-kind branch
    left the function. *)
Fixpoint draw_series (df : DataFrame) (gc : ChartSpec) (x : Series)
         (ys : list string) : Run bool :=
  match ys with
  | [] => ret true
  | y_column :: rest =>
      y <- df_getitem df y_column ;;
      kind <- getitem "kind" (kind gc) ;;
      if String.eqb kind "line" then
        draw (Plot x y None y_column) ;; draw_series df gc x rest
      else if String.eqb kind "plot" then
        draw (Plot x y (Some "o") y_column) ;; draw_series df gc x rest
      else if String.eqb kind "scatter" then
        draw (Scatter x y y_column) ;; draw_series df gc x rest
      else if String.eqb kind "bar" then
        draw (Bar x y y_column) ;; draw_series df gc x rest
      else
        print ("[WARNING] Unsupported graph type: " ++ kind) ;;
        ret false
  end.

(** Lines 68 to 85: labels, layout, output directory, save, close. *)
Definition finish_graph (gc : ChartSpec) : Run unit :=
  t <- getitem "title" (title gc) ;;
  emit (Title t) ;;
  xc <- getitem "x_column" (x_column gc) ;;
  emit (Xlabel (dict_get (x_label gc) xc)) ;;
  ycs <- getitem "y_columns" (y_columns gc) ;;
  emit (Ylabel (dict_get (y_label gc) (String.concat ", " ycs))) ;;
  emit Legend ;;
  emit Grid ;;
  emit TightLayout ;;
  out <- getitem "output_file" (output_file gc) ;;
  (if nonempty (dirname out) then makedirs (dirname out) else ret tt) ;;
  try_finally
    (try_except
       (out <- getitem "output_file" (output_file gc) ;; savefig out)
       (fun e =>
          out <- getitem "output_file" (output_file gc) ;;
          print ("Error saving graph to " ++ out ++ ": " ++ detail e)))
    (emit Close).

Definition generate_graph (df : DataFrame) (graph_config : ChartSpec)
  : Run unit :=
  emit (Call df graph_config) ;;
  emit Clf ;;
  size_figure graph_config ;;
  xc <- getitem "x_column" (x_column graph_config) ;;
  x <- df_getitem df xc ;;
  ycs <- getitem "y_columns" (y_columns graph_config) ;;
  completed <- draw_series df graph_config x ycs ;;
  if completed : bool then finish_graph graph_config else ret tt.

(** *** [load_dataframe] *)

Definition load_dataframe (file_path : string) : Run DataFrame :=
  try_except (lift (pd_read_csv w file_path))
    (fun e =>
       match cls e with
       | FileNotFoundError =>
           print ("Error: Data file '" ++ file_path ++ "' not found!") ;;
           sys_exit 1
       | EmptyDataError =>
           print ("Error: Data file '" ++ file_path ++ "' is empty!") ;;
           sys_exit 1
       | _ =>
           print ("Error reading data file '" ++ file_path ++ "': "
                  ++ detail e) ;;
           sys_exit 1
       end).

(** *** [main] *)

Record Args : Set := mkArgs {
  input : option string;   (* --input / -i, None when not given *)
  config : string          (* --config / -c, default config.yaml *)
}.

(** [config['graphs']] *)
Definition subscript_graphs (config : document) : Run (list ChartSpec) :=
  match config with
  | DNull => raise (mkExn TypeError "'NoneType' object is not subscriptable")
  | DScalar _ => raise (mkExn TypeError "string indices must be integers")
  | DSequence => raise (mkExn TypeError "list indices must be integers or slices, not str")
  | DMapping g => getitem "graphs" g
  end.

(** [[g for g in graphs if g['x_column'] in df.columns]] *)
Fixpoint matching_graphs (df : DataFrame) (graphs : list ChartSpec)
  : Run (list ChartSpec) :=
  match graphs with
  | [] => ret []
  | g :: rest =>
      xc <- getitem "x_column" (x_column g) ;;
      selected <- matching_graphs df rest ;;
      ret (if in_columns xc df then g :: selected else selected)
  end.

Definition main (args : Args) : Run unit :=
  config <- load_config (config args) ;;
  match input args with
  | Some (String c r) =>
      df <- load_dataframe (String c r) ;;
      graphs <- subscript_graphs config ;;
      for_each graphs
        (fun graph =>
           xc <- getitem "x_column" (x_column graph) ;;
           if in_columns xc df then generate_graph df graph else ret tt)
  | _ =>
      df_examples <- load_dataframe "data/examples.csv" ;;
      graphs <- subscript_graphs config ;;
      examples_graphs <- matching_graphs df_examples graphs ;;
      for_each examples_graphs (generate_graph df_examples) ;;
      df_fibonacci <- load_dataframe "data/fibonacci.csv" ;;
      graphs <- subscript_graphs config ;;
      fibonacci_graphs <- matching_graphs df_fibonacci graphs ;;
      for_each fibonacci_graphs (generate_graph df_fibonacci)
  end.

End Program.

Arguments read_config w config_path : simpl never.

(** ** Reading traces *)

(** The calls of [generate_graph] a trace records, in order. *)
Definition invocation (e : event) : list (DataFrame * ChartSpec) :=
  match e with
  | Call df gc => [(df, gc)]
  | _ => []
  end.

Definition invocations (t : list event) : list (DataFrame * ChartSpec) :=
  flat_map invocation t.

Definition xlabel_of (e : event) : list string :=
  match e with
  | Xlabel s => [s]
  | _ => []
  end.

Definition ylabel_of (e : event) : list string :=
  match e with
  | Ylabel s => [s]
  | _ => []
  end.

(** The axis labels a trace sets, in order. *)
Definition xlabels (t : list event) : list string := flat_map xlabel_of t.
Definition ylabels (t : list event) : list string := flat_map ylabel_of t.

(** An image file comes to exist at [path] when a [savefig] succeeded. *)
Definition writes_file (t : list event) (path : string) : Prop :=
  In (Savefig path None) t.

(** A series is drawn. *)
Definition is_drawing (e : event) : bool :=
  match e with
  | Plot _ _ _ _ | Scatter _ _ _ | Bar _ _ _ => true
  | _ => false
  end.

(** The program's own warning for a chart kind it does not know. *)
Definition unsupported_warning (k : string) : string :=
  "[WARNING] Unsupported graph type: " ++ k.

Definition supported (k : string) : bool :=
  String.eqb k "line" || String.eqb k "plot"
  || String.eqb k "scatter" || String.eqb k "bar".

(** What line 48-49 adds to the trace. *)
Definition figure_events (gc : ChartSpec) : list event :=
  match figure_size gc with
  | Some sz => [Figure sz]
  | None => []
  end.

(** The caller's test [graph['x_column'] in df.columns]. *)
Definition selects (df : DataFrame) (gc : ChartSpec) : bool :=
  match x_column gc with
  | Some xc => in_columns xc df
  | None => false
  end.

(** *** pyplot's registry of open figures

    [plt.figure(...)] always opens a new figure and makes it current;
    [plt.close()] destroys the current figure when there is one; every
    other pyplot call works on the current figure and opens one first
    when none is open.  The count reads traces in which every
    [plt.figure] call returned: a call that raised opens nothing. *)
Definition needs_figure (e : event) : bool :=
  match e with
  | Clf | Plot _ _ _ _ | Scatter _ _ _ | Bar _ _ _ | Title _ | Xlabel _
  | Ylabel _ | Legend | Grid | TightLayout | Savefig _ _ => true
  | _ => false
  end.

Definition step_figures (open : nat) (e : event) : nat :=
  match e with
  | Figure _ => S open
  | Close => pred open
  | _ => if needs_figure e then Nat.max open 1 else open
  end.

Definition live_figures (open : nat) (t : list event) : nat :=
  fold_left step_figures t open.

(** ** Further readings of traces and runs *)

Definition makedirs_events (w : World) (out : string) : list event :=
  if nonempty (dirname out)
  then [Makedirs (dirname out) (os_makedirs w (dirname out))]
  else [].

Definition save_events (w : World) (out : string) : list event :=
  Savefig out (plt_savefig w out)
  :: match plt_savefig w out with
     | None => []
     | Some e => [Print ("Error saving graph to " ++ out ++ ": " ++ detail e)]
     end ++ [Close].

Definition loop_event (e : event) : bool :=
  match e with
  | Plot _ _ _ _ | Scatter _ _ _ | Bar _ _ _ | Print _ => true
  | _ => false
  end.

Definition label_events (gc : ChartSpec) (t xc : string) (ycs : list string)
  : list event :=
  [Title t; Xlabel (dict_get (x_label gc) xc);
   Ylabel (dict_get (y_label gc) (String.concat ", " ycs));
   Legend; Grid; TightLayout].

Definition is_save (e : event) : bool :=
  match e with
  | Savefig _ _ => true
  | _ => false
  end.

Definition Q_eq_dec (a b : Q) : {a = b} + {a <> b}.
Proof. decide equality; [apply Pos.eq_dec | apply Z.eq_dec]. Defined.

Definition spec_eq_dec (a b : ChartSpec) : {a = b} + {a <> b}.
Proof.
  decide equality;
    repeat (decide equality; try apply Q_eq_dec; try apply string_dec).
Defined.

Definition calls_of (s : ChartSpec) (t : list event) : nat :=
  count_occ spec_eq_dec (map snd (invocations t)) s.

Definition default_mode (a : Args) : bool :=
  match input a with
  | Some (String _ _) => false
  | _ => true
  end.

Definition datasets (a : Args) : list string :=
  match input a with
  | Some (String c r) => [String c r]
  | _ => ["data/examples.csv"; "data/fibonacci.csv"]
  end.

Definition quiet (e : event) : Prop := invocation e = [].


(** The status the process ends with: 0 when [main] returns, the code
    given to [sys.exit], and 1 when an exception escapes [main] (the
    interpreter prints the traceback and exits with 1). *)
Definition exit_status (r : result unit) : Z :=
  match r with
  | Ret _ => 0%Z
  | Exit c => c
  | Raise _ => 1%Z
  end.

Definition config_load_fails (w : World) (path : string) : Prop :=
  exists e, outcome (read_config w path) = Raise e
            /\ (cls e = FileNotFoundError \/ cls e = YAMLError).

Definition dataset_load_fails (w : World) (path : string) : Prop :=
  exists e, pd_read_csv w path = Failure e.

Definition load_failure (w : World) (a : Args) : Prop :=
  config_load_fails w (config a)
  \/ exists p, In p (datasets a) /\ dataset_load_fails w p.

Definition with_savefig (w : World) (sf : string -> option exn) : World :=
  mkWorld (open_file w) (yaml_safe_load w) (pd_read_csv w) (os_makedirs w) sf
          (plt_figure w) (plt_draw w).

Definition no_exit {A} (m : Run A) : Prop := forall c, outcome m <> Exit c.

Definition data_not_found_msg (p : string) : string :=
  "Error: Data file '" ++ p ++ "' not found!".
Definition data_empty_msg (p : string) : string :=
  "Error: Data file '" ++ p ++ "' is empty!".
Definition data_generic_msg (p d : string) : string :=
  "Error reading data file '" ++ p ++ "': " ++ d.
Definition config_not_found_msg (p : string) : string :=
  "Error: Config file '" ++ p ++ "' not found!".
Definition config_parse_msg (d : string) : string :=
  "Error parsing config file: " ++ d.

Definition first_dataset (a : Args) : string :=
  match input a with
  | Some (String c r) => String c r
  | _ => "data/examples.csv"
  end.

Definition none_not_subscriptable : exn :=
  mkExn TypeError "'NoneType' object is not subscriptable".

Definition examples_df : DataFrame :=
  [("n", [Num 1; Num 2; Num 3]); ("value", [Num 2; Num 4; Num 6])].

Definition fibonacci_df : DataFrame :=
  [("n", [Num 1; Num 2; Num 3]); ("fib", [Num 1; Num 1; Num 2])].

Definition abc_df : DataFrame :=
  [("a", [Num 1]); ("b", [Num 2]); ("c", [Num 3])].

Definition abc_spec : ChartSpec :=
  mkSpec (Some "line") (Some "a") (Some ["b"; "c"]) (Some "T")
         None None None (Some "out/x.png").

Definition shared_spec : ChartSpec :=
  mkSpec (Some "line") (Some "n") (Some ["n"]) (Some "Index")
         None None None (Some "out/index.png").

Definition missing_y_spec : ChartSpec :=
  mkSpec (Some "line") (Some "n") (Some ["total"]) (Some "Totals")
         None None None (Some "out/totals.png").

Definition pie_spec : ChartSpec :=
  mkSpec (Some "pie") (Some "n") (Some ["value"]) (Some "Pie")
         None None (Some [8; 6]) (Some "out/pie.png").

Definition pie_empty_spec : ChartSpec :=
  mkSpec (Some "pie") (Some "n") (Some []) (Some "Pie")
         None None None (Some "out/pie.png").

Definition bar_spec : ChartSpec :=
  mkSpec (Some "bar") (Some "n") (Some ["value"]) (Some "Values")
         (Some "step") None None (Some "out/values.xyz").

Definition no_such_file (p : string) : exn :=
  mkExn FileNotFoundError ("[Errno 2] No such file or directory: '" ++ p ++ "'").

Definition unknown_format : exn :=
  mkExn ValueError "Format 'xyz' is not supported".

Definition bad_figure_size : exn :=
  mkExn ValueError "figure size must be positive finite".

(** pyplot takes a width and a height, both positive. *)
Definition check_figure_size (sz : list Q) : option exn :=
  match sz with
  | [width; height] =>
      if ((0 <? Qnum width) && (0 <? Qnum height))%Z then None
      else Some bad_figure_size
  | _ => Some bad_figure_size
  end.

(** A working directory holding [config.yaml], the two default tables
    and [abc.csv]; [config.yaml] parses to [doc]; saving to a [.xyz] path
    fails; a figure size must be two positive numbers; every series can
    be drawn. *)
Definition sample_world (doc : document) : World :=
  mkWorld
    (fun p => if String.eqb p "config.yaml" then Success "graphs: ..."
              else Failure (no_such_file p))
    (fun _ => Success doc)
    (fun p => if String.eqb p "data/examples.csv" then Success examples_df
              else if String.eqb p "data/fibonacci.csv" then Success fibonacci_df
              else if String.eqb p "abc.csv" then Success abc_df
              else Failure (no_such_file p))
    (fun _ => None)
    (fun p => if String.eqb p "out/values.xyz" then Some unknown_format
              else None)
    check_figure_size
    (fun _ => None).

Definition graphs_doc (gs : list ChartSpec) : document := DMapping (Some gs).

Definition default_args : Args := mkArgs None "config.yaml".

(** ** Series, saves and closes in a trace *)

(** The pyplot call that each supported kind makes for one series. *)
Definition plotter_of (k : string)
  : option (Series -> Series -> string -> event) :=
  if String.eqb k "line" then Some (fun x y label => Plot x y None label)
  else if String.eqb k "plot" then
    Some (fun x y label => Plot x y (Some "o") label)
  else if String.eqb k "scatter" then Some Scatter
  else if String.eqb k "bar" then Some Bar
  else None.

(** The series drawn for those of the columns [ys] that the table has. *)
Definition drawn_series (df : DataFrame)
           (f : Series -> Series -> string -> event) (x : Series)
           (ys : list string) : list event :=
  flat_map (fun y => match df_lookup df y with
                     | Some s => [f x s y]
                     | None => []
                     end) ys.

(** The legend label of a drawn series. *)
Definition series_label (e : event) : list string :=
  match e with
  | Plot _ _ _ label | Scatter _ _ label | Bar _ _ label => [label]
  | _ => []
  end.

Definition series_labels (t : list event) : list string :=
  flat_map series_label t.

Definition is_close (e : event) : bool :=
  match e with
  | Close => true
  | _ => false
  end.

Definition is_print (e : event) : bool :=
  match e with
  | Print _ => true
  | _ => false
  end.




Definition save_error_msg (path : string) (e : exn) : string :=
  "Error saving graph to " ++ path ++ ": " ++ detail e.

Definition key_error (key : string) : exn :=
  mkExn KeyError ("'" ++ key ++ "'").

(** The same world with another [pd.read_csv]. *)
Definition with_read_csv (w : World) (rc : string -> attempt DataFrame)
  : World :=
  mkWorld (open_file w) (yaml_safe_load w) rc (os_makedirs w) (plt_savefig w)
          (plt_figure w) (plt_draw w).

(** The body of the loop of [main] under [--input] (lines 124 to 126). *)
Definition render_if_selected (w : World) (df : DataFrame)
           (graph : ChartSpec) : Run unit :=
  xc <- getitem "x_column" (x_column graph) ;;
  if in_columns xc df then generate_graph w df graph else ret tt.

(** Two runs that invoke [generate_graph] alike and end alike. *)
Definition same_calls {A} (r r' : Run A) : Prop :=
  invocations (trace r) = invocations (trace r') /\ outcome r = outcome r'.

Definition scatter_spec : ChartSpec :=
  mkSpec (Some "scatter") (Some "n") (Some ["value"; "n"]) (Some "Cloud")
         None (Some "level") (Some [4; 3]) (Some "cloud.png").

Definition untitled_spec : ChartSpec :=
  mkSpec (Some "line") (Some "n") (Some ["value"]) None
         None None None (Some "out/untitled.png").

Definition no_x_spec : ChartSpec :=
  mkSpec (Some "line") None (Some ["value"]) (Some "No x")
         None None None (Some "out/nox.png").

Definition access_denied : exn :=
  mkExn OSError "[Errno 13] Permission denied: 'out'".

(** The sample directory, except that nothing can be created in it. *)
Definition readonly_world (doc : document) : World :=
  mkWorld (open_file (sample_world doc)) (yaml_safe_load (sample_world doc))
          (pd_read_csv (sample_world doc))
          (fun _ => Some access_denied)
          (plt_savefig (sample_world doc))
          (plt_figure (sample_world doc)) (plt_draw (sample_world doc)).

(** The sample directory without [data/fibonacci.csv]. *)
Definition no_fibonacci_world (doc : document) : World :=
  with_read_csv (sample_world doc)
    (fun p => if String.eqb p "data/fibonacci.csv"
              then Failure (no_such_file p)
              else pd_read_csv (sample_world doc) p).



Definition partly_missing_spec : ChartSpec :=
  mkSpec (Some "line") (Some "n") (Some ["value"; "total"; "n"])
         (Some "Totals") None None None (Some "out/totals.png").

Definition pie_missing_spec : ChartSpec :=
  mkSpec (Some "pie") (Some "n") (Some ["total"]) (Some "Pie")
         None None None (Some "out/pie.png").

(** The sample directory with a configuration file that cannot be read. *)
Definition locked_config_world : World :=
  mkWorld (fun _ => Failure access_denied)
          (yaml_safe_load (sample_world DNull))
          (pd_read_csv (sample_world DNull))
          (os_makedirs (sample_world DNull))
          (plt_savefig (sample_world DNull))
          (plt_figure (sample_world DNull)) (plt_draw (sample_world DNull)).

Definition examples_args : Args :=
  mkArgs (Some "data/examples.csv") "config.yaml".

Definition permission_denied (p : string) : exn :=
  mkExn PermissionError ("[Errno 13] Permission denied: '" ++ p ++ "'").

(** The sample directory with a table that exists but may not be read. *)
Definition locked_table_world : World :=
  with_read_csv (sample_world DNull)
    (fun p => if String.eqb p "data/locked.csv"
              then Failure (permission_denied p)
              else pd_read_csv (sample_world DNull) p).

(** The sample directory with a [config.yaml] that exists but may not be
    read. *)
Definition unreadable_config_world : World :=
  mkWorld (fun p => if String.eqb p "config.yaml"
                    then Failure (permission_denied p)
                    else Failure (no_such_file p))
          (yaml_safe_load (sample_world DNull))
          (pd_read_csv (sample_world DNull))
          (os_makedirs (sample_world DNull))
          (plt_savefig (sample_world DNull))
          (plt_figure (sample_world DNull)) (plt_draw (sample_world DNull)).

Definition oversized_spec : ChartSpec :=
  mkSpec (Some "pie") (Some "n") (Some ["value"]) (Some "Pie")
         None None (Some [-1; 2]) (Some "out/pie.png").

Definition incompatible_bar : exn :=
  mkExn TypeError
        "the dtypes of parameters x (object) and width (float64) are incompatible".

Definition values_bar_spec : ChartSpec :=
  mkSpec (Some "bar") (Some "n") (Some ["value"; "n"]) (Some "Values")
         None None None (Some "out/values.png").

(** The sample directory, where pyplot cannot draw bars. *)
Definition no_bars_world : World :=
  mkWorld (open_file (sample_world DNull)) (yaml_safe_load (sample_world DNull))
          (pd_read_csv (sample_world DNull))
          (os_makedirs (sample_world DNull))
          (plt_savefig (sample_world DNull))
          (plt_figure (sample_world DNull))
          (fun call => match call with
                       | Bar _ _ _ => Some incompatible_bar
                       | _ => None
                       end).

(** ** Laws of the monad *)

Section Laws.

Context {A B : Type}.

Lemma bind_of_ret (m : Run A) (f : A -> Run B) (a : A) :
  outcome m = Ret a ->
  bind m f = mkRun (trace m ++ trace (f a)) (outcome (f a)).
Proof. intros H. unfold bind. now rewrite H. Qed.

Lemma bind_of_raise (m : Run A) (f : A -> Run B) (e : exn) :
  outcome m = Raise e -> bind m f = mkRun (trace m) (Raise e).
Proof. intros H. unfold bind. now rewrite H. Qed.

Lemma bind_of_exit (m : Run A) (f : A -> Run B) (c : Z) :
  outcome m = Exit c -> bind m f = mkRun (trace m) (Exit c).
Proof. intros H. unfold bind. now rewrite H. Qed.

Lemma bind_ret_inv (m : Run A) (f : A -> Run B) (b : B) :
  outcome (bind m f) = Ret b ->
  exists a, outcome m = Ret a /\ outcome (f a) = Ret b
            /\ trace (bind m f) = trace m ++ trace (f a).
Proof.
  unfold bind. destruct (outcome m) as [a|e|c]; cbn; intros H; try discriminate.
  exists a. auto.
Qed.

Lemma bind_exit_inv (m : Run A) (f : A -> Run B) (c : Z) :
  outcome (bind m f) = Exit c ->
  outcome m = Exit c \/ exists a, outcome m = Ret a /\ outcome (f a) = Exit c.
Proof.
  unfold bind. destruct (outcome m) as [a|e|c']; cbn; intros H.
  - right. exists a. auto.
  - discriminate.
  - left. congruence.
Qed.

Lemma bind_trace_Forall (P : event -> Prop) (m : Run A) (f : A -> Run B) :
  Forall P (trace m) -> (forall a, Forall P (trace (f a))) ->
  Forall P (trace (bind m f)).
Proof.
  intros Hm Hf. unfold bind. destruct (outcome m); cbn; auto.
  apply Forall_app. split; auto.
Qed.

(** The outcome of a sequence depends on the outcomes of its parts only. *)
Lemma bind_outcome_ext (m m' : Run A) (f f' : A -> Run B) :
  outcome m = outcome m' ->
  (forall a, outcome (f a) = outcome (f' a)) ->
  outcome (bind m f) = outcome (bind m' f').
Proof.
  intros Hm Hf. unfold bind. rewrite <- Hm.
  destruct (outcome m); cbn; auto.
Qed.

End Laws.

Lemma try_except_trace_Forall {A} (P : event -> Prop) (m : Run A) h :
  Forall P (trace m) -> (forall e, Forall P (trace (h e))) ->
  Forall P (trace (try_except m h)).
Proof.
  intros Hm Hh. unfold try_except. destruct (outcome m); cbn; auto.
  apply Forall_app. split; auto.
Qed.

Lemma try_finally_trace_Forall {A} (P : event -> Prop) (m : Run A) fin :
  Forall P (trace m) -> Forall P (trace fin) ->
  Forall P (trace (try_finally m fin)).
Proof. intros Hm Hf. cbn. apply Forall_app. split; auto. Qed.


Lemma getitem_trace {A} key (v : option A) : trace (getitem key v) = [].
Proof. now destruct v. Qed.

Lemma df_getitem_trace df name : trace (df_getitem df name) = [].
Proof. unfold df_getitem. now destruct (df_lookup df name). Qed.

Lemma lift_trace {A} (a : attempt A) : trace (lift a) = [].
Proof. now destruct a. Qed.

Lemma invocations_app t1 t2 :
  invocations (t1 ++ t2) = invocations t1 ++ invocations t2.
Proof. apply flat_map_app. Qed.

Lemma invocations_quiet t :
  Forall (fun e => invocation e = []) t -> invocations t = [].
Proof.
  unfold invocations. induction 1 as [|e t He _ IH]; cbn; auto.
  now rewrite He, IH.
Qed.

(** ** Columns *)

Lemma in_columns_lookup df name :
  in_columns name df = true -> exists s, df_lookup df name = Some s.
Proof.
  unfold in_columns, df_columns.
  induction df as [|[c s] rest IH]; cbn; intros H; try discriminate.
  destruct (String.eqb name c); eauto.
Qed.

Lemma lookup_in_columns df name s :
  df_lookup df name = Some s -> in_columns name df = true.
Proof.
  unfold in_columns, df_columns.
  induction df as [|[c s'] rest IH]; cbn; intros H; try discriminate.
  destruct (String.eqb name c); cbn; auto.
Qed.

Lemma figure_run w sz :
  figure w sz
  = mkRun [Figure sz] (match plt_figure w sz with
                       | None => Ret tt
                       | Some e => Raise e
                       end).
Proof. unfold figure. cbn. now destruct (plt_figure w sz). Qed.

Lemma draw_run w call :
  draw w call
  = mkRun [call] (match plt_draw w call with
                  | None => Ret tt
                  | Some e => Raise e
                  end).
Proof. unfold draw. cbn. now destruct (plt_draw w call). Qed.

Lemma size_figure_trace w gc : trace (size_figure w gc) = figure_events gc.
Proof.
  unfold size_figure, figure_events.
  destruct (figure_size gc); [now rewrite figure_run|reflexivity].
Qed.

Lemma size_figure_ok w gc :
  (forall sz, figure_size gc = Some sz -> plt_figure w sz = None) ->
  size_figure w gc = mkRun (figure_events gc) (Ret tt).
Proof.
  unfold size_figure, figure_events. intros H.
  destruct (figure_size gc) as [sz|]; [|reflexivity].
  now rewrite figure_run, (H sz eq_refl).
Qed.

Lemma draw_then w call {A} (k : Run A) :
  (draw w call ;; k)
  = match plt_draw w call with
    | None => mkRun (call :: trace k) (outcome k)
    | Some e => mkRun [call] (Raise e)
    end.
Proof.
  unfold bind. rewrite draw_run. cbn. now destruct (plt_draw w call).
Qed.

Lemma supported_false k :
  supported k = false ->
  String.eqb k "line" = false /\ String.eqb k "plot" = false
  /\ String.eqb k "scatter" = false /\ String.eqb k "bar" = false.
Proof.
  unfold supported. intros H.
  repeat (apply orb_false_iff in H; destruct H as [H ?]). auto.
Qed.

Lemma draw_series_unsupported w df gc x k y s ys :
  kind gc = Some k -> supported k = false -> df_lookup df y = Some s ->
  draw_series w df gc x (y :: ys)
  = mkRun [Print (unsupported_warning k)] (Ret false).
Proof.
  intros Hk Hs Hy. apply supported_false in Hs as (H1 & H2 & H3 & H4).
  cbn. unfold df_getitem. rewrite Hy, Hk. cbn.
  rewrite H1, H2, H3, H4. reflexivity.
Qed.

Lemma finish_graph_run w gc t xc ycs out :
  title gc = Some t -> x_column gc = Some xc -> y_columns gc = Some ycs ->
  output_file gc = Some out ->
  (nonempty (dirname out) = true -> os_makedirs w (dirname out) = None) ->
  finish_graph w gc
  = mkRun ([Title t; Xlabel (dict_get (x_label gc) xc);
            Ylabel (dict_get (y_label gc) (String.concat ", " ycs));
            Legend; Grid; TightLayout]
           ++ makedirs_events w out ++ save_events w out) (Ret tt).
Proof.
  intros Ht Hx Hy Ho Hm. unfold finish_graph, makedirs_events, save_events.
  rewrite Ht, Hx, Hy, Ho. cbn.
  unfold makedirs, savefig.
  destruct (nonempty (dirname out)); cbn.
  - rewrite (Hm eq_refl). cbn. destruct (plt_savefig w out); cbn. all: reflexivity.
  - destruct (plt_savefig w out); reflexivity.
Qed.

Lemma draw_series_events w df gc x ys :
  Forall (fun e => loop_event e = true) (trace (draw_series w df gc x ys)).
Proof.
  induction ys as [|y rest IH]; cbn [draw_series].
  - constructor.
  - apply bind_trace_Forall; [rewrite df_getitem_trace; constructor|intros s].
    apply bind_trace_Forall; [rewrite getitem_trace; constructor|intros k].
    repeat match goal with
           | |- context [if ?b then _ else _] => destruct b
           end;
      try (rewrite draw_then;
           match goal with
           | |- context [plt_draw w ?c] => destruct (plt_draw w c)
           end; cbn [trace];
           repeat (constructor; [reflexivity|]); first [exact IH|constructor]).
    cbn. repeat constructor.
Qed.

Lemma draw_series_completed w df gc x ys :
  outcome (draw_series w df gc x ys) = Ret true ->
  Forall (fun e => is_drawing e = true) (trace (draw_series w df gc x ys)).
Proof.
  induction ys as [|y rest IH]; cbn [draw_series].
  - constructor.
  - intros H.
    apply bind_ret_inv in H as (s & Hs & H & ->).
    apply bind_ret_inv in H as (k & Hk & H & ->).
    rewrite df_getitem_trace, getitem_trace. cbn [app].
    repeat match type of H with
           | context [if ?b then _ else _] => destruct b
           end;
      try (rewrite draw_then in H |- *;
           match goal with
           | |- context [plt_draw w ?c] => destruct (plt_draw w c)
           end; cbn [trace outcome] in H |- *; [discriminate|];
           constructor; [reflexivity|auto]).
    cbn in H. discriminate.
Qed.

Lemma no_save_not_In t p failed :
  Forall (fun e => is_save e = false) t -> ~ In (Savefig p failed) t.
Proof.
  intros H Hin. rewrite Forall_forall in H. apply H in Hin. discriminate.
Qed.

Lemma loop_events_no_save t :
  Forall (fun e => loop_event e = true) t ->
  Forall (fun e => is_save e = false) t.
Proof.
  apply Forall_impl. intros [] H; try reflexivity; discriminate.
Qed.

Lemma finish_graph_saved w gc p failed :
  In (Savefig p failed) (trace (finish_graph w gc)) ->
  exists t xc ycs,
    title gc = Some t /\ x_column gc = Some xc /\ y_columns gc = Some ycs
    /\ output_file gc = Some p
    /\ finish_graph w gc
       = mkRun (label_events gc t xc ycs ++ makedirs_events w p
                ++ save_events w p) (Ret tt).
Proof.
  unfold finish_graph, label_events, makedirs_events, save_events,
    makedirs, savefig.
  destruct (title gc) as [t|]; cbn; [|tauto].
  destruct (x_column gc) as [xc|]; cbn; [|intuition discriminate].
  destruct (y_columns gc) as [ycs|]; cbn; [|intuition discriminate].
  destruct (output_file gc) as [out|]; cbn; [|intuition discriminate].
  destruct (nonempty (dirname out)) eqn:Hn; cbn;
    [destruct (os_makedirs w (dirname out)) eqn:Hm; cbn|];
    try (intuition discriminate);
    (destruct (plt_savefig w out) eqn:Hs; cbn; intros H;
     exists t, xc, ycs;
     assert (out = p) as <- by (intuition congruence);
     rewrite Hn, ?Hm, Hs; auto).
Qed.

Lemma generate_graph_saved w df gc p failed :
  In (Savefig p failed) (trace (generate_graph w df gc)) ->
  exists t xc ycs drawn,
    title gc = Some t /\ x_column gc = Some xc /\ y_columns gc = Some ycs
    /\ output_file gc = Some p
    /\ Forall (fun e => is_drawing e = true) drawn
    /\ generate_graph w df gc
       = mkRun ([Call df gc; Clf] ++ figure_events gc ++ drawn
                ++ label_events gc t xc ycs ++ makedirs_events w p
                ++ save_events w p) (Ret tt).
Proof.
  unfold generate_graph, size_figure, figure, figure_events, df_getitem.
  destruct (figure_size gc) as [sz|];
    [destruct (plt_figure w sz) as [fe|]|]; cbn.
  1:{ intros H. exfalso.
      repeat (destruct H as [H|H]; [discriminate|]). exact H. }
  all: (destruct (x_column gc) as [xc|] eqn:Hx; cbn; [|intuition discriminate];
     destruct (df_lookup df xc) as [x|]; cbn; [|intuition discriminate];
     destruct (y_columns gc) as [ycs|] eqn:Hy; cbn; [|intuition discriminate];
     pose proof (draw_series_events w df gc x ycs) as Hev;
     pose proof (draw_series_completed w df gc x ycs) as Hdr;
     destruct (draw_series w df gc x ycs) as [drawn [[|]|e|c]]; cbn in *;
     intros H;
     repeat (destruct H as [H|H]; [discriminate|]);
     rewrite ?app_nil_r in H; try apply in_app_or in H;
     try (exfalso; eapply no_save_not_In;
          [apply loop_events_no_save; exact Hev|exact H])).
  all: destruct H as [H|H];
    [exfalso; eapply no_save_not_In;
     [apply loop_events_no_save; exact Hev|exact H]|].
  all: apply finish_graph_saved in H as (t & xc' & ycs' & Ht & Hx' & Hy' & Ho & E).
  all: exists t, xc, ycs, drawn; rewrite E; cbn.
  all: assert (xc' = xc) as -> by congruence.
  all: assert (ycs' = ycs) as -> by congruence.
  all: rewrite <- ?app_assoc; auto 10.
Qed.

Lemma generate_graph_with_loop w df gc xc x ycs td r :
  (forall sz, figure_size gc = Some sz -> plt_figure w sz = None) ->
  x_column gc = Some xc -> df_lookup df xc = Some x ->
  y_columns gc = Some ycs ->
  draw_series w df gc x ycs = mkRun td r ->
  generate_graph w df gc
  = match r with
    | Ret true =>
        mkRun ([Call df gc; Clf] ++ figure_events gc ++ td
               ++ trace (finish_graph w gc)) (outcome (finish_graph w gc))
    | Ret false => mkRun ([Call df gc; Clf] ++ figure_events gc ++ td) (Ret tt)
    | Raise e => mkRun ([Call df gc; Clf] ++ figure_events gc ++ td) (Raise e)
    | Exit c => mkRun ([Call df gc; Clf] ++ figure_events gc ++ td) (Exit c)
    end.
Proof.
  intros Hf Hx Hxl Hy Hd.
  unfold generate_graph, df_getitem.
  rewrite (size_figure_ok w gc Hf), Hx, Hy.
  cbn [bind emit ret getitem outcome trace app].
  rewrite Hxl. cbn [bind emit ret getitem outcome trace app].
  rewrite Hd. destruct r as [[|]|e|c]; cbn; rewrite ?app_nil_r; reflexivity.
Qed.

Lemma generate_graph_unsupported w df gc k xc y ys :
  (forall sz, figure_size gc = Some sz -> plt_figure w sz = None) ->
  kind gc = Some k -> supported k = false ->
  x_column gc = Some xc -> in_columns xc df = true ->
  y_columns gc = Some (y :: ys) -> in_columns y df = true ->
  generate_graph w df gc
  = mkRun ([Call df gc; Clf] ++ figure_events gc
           ++ [Print (unsupported_warning k)]) (Ret tt).
Proof.
  intros Hf Hk Hs Hx Hxin Hy Hyin.
  apply in_columns_lookup in Hxin as [x Hxl].
  apply in_columns_lookup in Hyin as [s Hyl].
  exact (generate_graph_with_loop w df gc xc x _ _ _ Hf Hx Hxl Hy
           (draw_series_unsupported w df gc x k y s ys Hk Hs Hyl)).
Qed.

(** C4.  A chart specification that satisfies the data model (its x
    column and its first y column are columns of the table, [y_columns]
    is not empty, and [figure_size], when given, is a size that
    [plt.figure] accepts) and whose [kind] is none of [line], [plot],
    [scatter], [bar]: [generate_graph] returns normally (it neither raises
    nor exits); all it does is reset the figure, open the sized figure when
    [figure_size] is given, and print one warning that names the kind.  No
    [savefig] is attempted at any path, so no file is written, and no
    drawing call is made; the remaining y columns [ys] play no part. *)
Theorem unsupported_kind_aborts w df gc k xc y ys :
  (forall sz, figure_size gc = Some sz -> plt_figure w sz = None) ->
  kind gc = Some k -> supported k = false ->
  x_column gc = Some xc -> in_columns xc df = true ->
  y_columns gc = Some (y :: ys) -> in_columns y df = true ->
  let r := generate_graph w df gc in
  outcome r = Ret tt
  /\ trace r = [Call df gc; Clf] ++ figure_events gc
               ++ [Print (unsupported_warning k)]
  /\ In (Print (unsupported_warning k)) (trace r)
  /\ (forall p failed, ~ In (Savefig p failed) (trace r))
  /\ (forall e, In e (trace r) -> is_drawing e = false).
Proof.
  intros Hf Hk Hs Hx Hxin Hy Hyin r. subst r.
  rewrite (generate_graph_unsupported w df gc k xc y ys
             Hf Hk Hs Hx Hxin Hy Hyin).
  cbn [trace outcome].
  split; [reflexivity|]. split; [reflexivity|].
  unfold figure_events.
  destruct (figure_size gc); cbn [app In].
  all: repeat split; try tauto; intros;
    repeat match goal with
           | H : _ \/ _ |- _ => destruct H as [H|H]
           | H : False |- _ => destruct H
           | H : _ = _ |- _ => first [discriminate H | subst; reflexivity]
           | |- ~ _ => intro
           end.
Qed.

Lemma generate_graph_empty w df gc xc t out :
  (forall sz, figure_size gc = Some sz -> plt_figure w sz = None) ->
  y_columns gc = Some [] -> x_column gc = Some xc -> in_columns xc df = true ->
  title gc = Some t -> output_file gc = Some out ->
  (nonempty (dirname out) = true -> os_makedirs w (dirname out) = None) ->
  generate_graph w df gc
  = mkRun ([Call df gc; Clf] ++ figure_events gc
           ++ label_events gc t xc [] ++ makedirs_events w out
           ++ save_events w out) (Ret tt).
Proof.
  intros Hf Hy Hx Hxin Ht Ho Hm.
  apply in_columns_lookup in Hxin as [x Hxl].
  rewrite (generate_graph_with_loop w df gc xc x [] [] (Ret true)
             Hf Hx Hxl Hy eq_refl).
  rewrite (finish_graph_run w gc t xc [] out Ht Hx Hy Ho Hm).
  reflexivity.
Qed.

Lemma xlabels_app t1 t2 : xlabels (t1 ++ t2) = xlabels t1 ++ xlabels t2.
Proof. apply flat_map_app. Qed.

Lemma ylabels_app t1 t2 : ylabels (t1 ++ t2) = ylabels t1 ++ ylabels t2.
Proof. apply flat_map_app. Qed.

Lemma labels_of_figure_events gc :
  xlabels (figure_events gc) = [] /\ ylabels (figure_events gc) = [].
Proof. unfold figure_events. now destruct (figure_size gc). Qed.

Lemma labels_of_makedirs_events w out :
  xlabels (makedirs_events w out) = [] /\ ylabels (makedirs_events w out) = [].
Proof. unfold makedirs_events. now destruct (nonempty (dirname out)). Qed.

Lemma labels_of_save_events w out :
  xlabels (save_events w out) = [] /\ ylabels (save_events w out) = [].
Proof. unfold save_events. now destruct (plt_savefig w out). Qed.

Lemma labels_of_drawing t :
  Forall (fun e => is_drawing e = true) t -> xlabels t = [] /\ ylabels t = [].
Proof.
  induction 1 as [|e t He _ [IHx IHy]]; [now split|].
  unfold xlabels, ylabels in *. cbn. rewrite IHx, IHy.
  destruct e; try discriminate; now split.
Qed.

Lemma labels_of_chart w df gc t xc ycs drawn out :
  Forall (fun e => is_drawing e = true) drawn ->
  let tr := [Call df gc; Clf] ++ figure_events gc ++ drawn
            ++ label_events gc t xc ycs ++ makedirs_events w out
            ++ save_events w out in
  xlabels tr = [dict_get (x_label gc) xc]
  /\ ylabels tr = [dict_get (y_label gc) (String.concat ", " ycs)].
Proof.
  intros Hd tr. subst tr.
  destruct (labels_of_figure_events gc) as [Fx Fy].
  destruct (labels_of_makedirs_events w out) as [Mx My].
  destruct (labels_of_save_events w out) as [Sx Sy].
  destruct (labels_of_drawing drawn Hd) as [Dx Dy].
  rewrite !xlabels_app, !ylabels_app, Fx, Fy, Mx, My, Sx, Sy, Dx, Dy.
  now split.
Qed.

Lemma In_drawing_absurd (t : list event) (e : event) :
  Forall (fun e => is_drawing e = true) t -> is_drawing e = false ->
  ~ In e t.
Proof.
  intros H He Hin. rewrite Forall_forall in H. apply H in Hin. congruence.
Qed.

Lemma In_chart_trace_gen (e : event) df gc (drawn l m s : list event) :
  In e ([Call df gc; Clf] ++ figure_events gc ++ drawn ++ l ++ m ++ s) ->
  e = Call df gc \/ e = Clf \/ In e (figure_events gc) \/ In e drawn
  \/ In e l \/ In e m \/ In e s.
Proof.
  intros H.
  apply in_app_or in H as [[H|[H|[]]]|H]; auto.
  apply in_app_or in H as [H|H]; auto.
  apply in_app_or in H as [H|H]; auto.
  apply in_app_or in H as [H|H]; auto 6.
  apply in_app_or in H as [H|H]; auto 7.
Qed.



(** C9.  A chart specification whose [y_columns] is the empty sequence,
    on a table that has its x column, with [title] and [output_file]
    present, a [figure_size] (if any) that [plt.figure] accepts and an
    output directory that can be created: whatever [kind]
    is (unsupported, or absent altogether), [generate_graph] returns
    normally, prints no unsupported-kind warning, draws no series, sets
    both labels (the y label defaults to the empty string) and attempts
    [savefig] at [output_file]; when that save succeeds the file is
    written. *)
Theorem empty_y_columns_skip_dispatch w df gc xc t out :
  (forall sz, figure_size gc = Some sz -> plt_figure w sz = None) ->
  y_columns gc = Some [] -> x_column gc = Some xc -> in_columns xc df = true ->
  title gc = Some t -> output_file gc = Some out ->
  (nonempty (dirname out) = true -> os_makedirs w (dirname out) = None) ->
  let r := generate_graph w df gc in
  outcome r = Ret tt
  /\ (forall k, ~ In (Print (unsupported_warning k)) (trace r))
  /\ (forall e, In e (trace r) -> is_drawing e = false)
  /\ xlabels (trace r) = [dict_get (x_label gc) xc]
  /\ ylabels (trace r) = [dict_get (y_label gc) ""]
  /\ In (Savefig out (plt_savefig w out)) (trace r)
  /\ (plt_savefig w out = None -> writes_file (trace r) out).
Proof.
  intros Hf Hy Hx Hxin Ht Ho Hm r. subst r.
  rewrite (generate_graph_empty w df gc xc t out Hf Hy Hx Hxin Ht Ho Hm).
  cbn [trace outcome].
  destruct (labels_of_chart w df gc t xc [] [] out (Forall_nil _)) as [Lx Ly].
  cbn [app] in Lx, Ly.
  assert (Hsave : In (Savefig out (plt_savefig w out))
                     ([Call df gc; Clf] ++ figure_events gc
                      ++ label_events gc t xc [] ++ makedirs_events w out
                      ++ save_events w out)).
  { repeat (apply in_or_app; right). left. reflexivity. }
  split; [reflexivity|]. split; [|split; [|split; [|split; [|split]]]]; auto.
  - intros k Hin.
    unfold figure_events, label_events, makedirs_events, save_events in Hin.
    destruct (figure_size gc), (nonempty (dirname out)), (plt_savefig w out);
      cbn in Hin;
      repeat (destruct Hin as [Hin|Hin]; [discriminate Hin|]); exact Hin.
  - intros e Hin.
    unfold figure_events, label_events, makedirs_events, save_events in Hin.
    destruct (figure_size gc), (nonempty (dirname out)), (plt_savefig w out);
      cbn in Hin;
      repeat (destruct Hin as [Hin|Hin]; [subst e; reflexivity|]);
      destruct Hin.
  - unfold writes_file. intros Hs. rewrite Hs in Hsave. exact Hsave.
Qed.


Lemma finish_graph_quiet w gc : Forall quiet (trace (finish_graph w gc)).
Proof.
  unfold finish_graph, makedirs, savefig.
  repeat first
    [ apply bind_trace_Forall; [|intros ?]
    | apply try_finally_trace_Forall
    | apply try_except_trace_Forall; [|intros ?]
    | rewrite getitem_trace
    | match goal with
      | |- context [match ?x with _ => _ end] => destruct x
      end
    | solve [repeat constructor] ].
Qed.

Lemma draw_series_quiet w df gc x ys :
  Forall quiet (trace (draw_series w df gc x ys)).
Proof.
  eapply Forall_impl; [|apply draw_series_events].
  intros [] H; try reflexivity; discriminate.
Qed.

Lemma bind_emit {B} (e : event) (f : unit -> Run B) :
  bind (emit e) f = mkRun (e :: trace (f tt)) (outcome (f tt)).
Proof. reflexivity. Qed.

Lemma generate_graph_head w df gc :
  exists rest,
    trace (generate_graph w df gc) = Call df gc :: Clf :: rest
    /\ Forall quiet rest.
Proof.
  unfold generate_graph. rewrite !bind_emit. cbn [trace].
  eexists. split; [reflexivity|].
  apply bind_trace_Forall;
    [rewrite size_figure_trace; unfold figure_events;
     destruct (figure_size gc); repeat constructor|intros _].
  apply bind_trace_Forall; [rewrite getitem_trace; constructor|intros xc].
  apply bind_trace_Forall; [rewrite df_getitem_trace; constructor|intros x].
  apply bind_trace_Forall; [rewrite getitem_trace; constructor|intros ycs].
  apply bind_trace_Forall; [apply draw_series_quiet|intros [|]].
  - apply finish_graph_quiet.
  - constructor.
Qed.

Lemma generate_graph_invocations w df gc :
  invocations (trace (generate_graph w df gc)) = [(df, gc)].
Proof.
  destruct (generate_graph_head w df gc) as (rest & -> & H).
  apply invocations_quiet in H. unfold invocations in *. cbn. now rewrite H.
Qed.

Lemma matching_graphs_trace df gs : trace (matching_graphs df gs) = [].
Proof.
  induction gs as [|g rest IH]; cbn; auto.
  unfold bind. destruct (x_column g); cbn; auto.
  rewrite IH. destruct (outcome (matching_graphs df rest)); reflexivity.
Qed.

Lemma matching_graphs_ret df gs l :
  outcome (matching_graphs df gs) = Ret l -> l = filter (selects df) gs.
Proof.
  revert l. induction gs as [|g rest IH]; cbn; intros l H.
  - congruence.
  - apply bind_ret_inv in H as (xc & Hx & H & _).
    apply bind_ret_inv in H as (sel & Hsel & H & _).
    apply IH in Hsel. subst sel. cbn in H.
    unfold selects at 1. destruct (x_column g); cbn in Hx; [|discriminate].
    injection Hx as ->. injection H as <-.
    destruct (in_columns xc df); reflexivity.
Qed.

Lemma matching_graphs_no_exit df gs c :
  outcome (matching_graphs df gs) <> Exit c.
Proof.
  induction gs as [|g rest IH]; cbn; [discriminate|].
  unfold bind. destruct (x_column g); cbn; [|discriminate].
  destruct (outcome (matching_graphs df rest)); cbn; try discriminate.
  exact IH.
Qed.




Lemma load_config_prints w p :
  Forall (fun e => exists m, e = Print m) (trace (load_config w p)).
Proof.
  unfold load_config, read_config.
  apply try_except_trace_Forall.
  - apply bind_trace_Forall; [rewrite lift_trace; constructor|intros f].
    rewrite lift_trace. constructor.
  - intros e. destruct (cls e); cbn; repeat constructor; eauto.
Qed.

Lemma load_dataframe_prints w p :
  Forall (fun e => exists m, e = Print m) (trace (load_dataframe w p)).
Proof.
  unfold load_dataframe.
  apply try_except_trace_Forall.
  - rewrite lift_trace. constructor.
  - intros e. destruct (cls e); cbn; repeat constructor; eauto.
Qed.

Lemma prints_quiet t :
  Forall (fun e => exists m, e = Print m) t -> Forall quiet t.
Proof. apply Forall_impl. intros e [m ->]. reflexivity. Qed.




Lemma for_each_generate_invocations w df l :
  outcome (for_each l (generate_graph w df)) = Ret tt ->
  invocations (trace (for_each l (generate_graph w df))) = map (pair df) l.
Proof.
  induction l as [|g rest IH]; cbn [for_each]; intros H; [reflexivity|].
  apply bind_ret_inv in H as ([] & _ & H & ->).
  rewrite invocations_app, generate_graph_invocations, (IH H). reflexivity.
Qed.

Lemma load_config_invocations w p : invocations (trace (load_config w p)) = [].
Proof. apply invocations_quiet, prints_quiet, load_config_prints. Qed.

Lemma load_dataframe_invocations w p :
  invocations (trace (load_dataframe w p)) = [].
Proof. apply invocations_quiet, prints_quiet, load_dataframe_prints. Qed.

Lemma load_dataframe_ret w p df :
  outcome (load_dataframe w p) = Ret df -> pd_read_csv w p = Success df.
Proof.
  unfold load_dataframe, try_except.
  destruct (pd_read_csv w p) as [d|e]; cbn; [congruence|].
  destruct (cls e); cbn; discriminate.
Qed.

Lemma count_occ_filter (p : ChartSpec -> bool) l s :
  count_occ spec_eq_dec (filter p l) s
  = if p s then count_occ spec_eq_dec l s else 0%nat.
Proof.
  induction l as [|g rest IH]; cbn; [now destruct (p s)|].
  destruct (p g) eqn:Hg; cbn; destruct (spec_eq_dec g s) as [->|Hne];
    rewrite IH; try rewrite Hg; auto.
Qed.

Lemma map_snd_pair {A B} (a : A) (l : list B) : map snd (map (pair a) l) = l.
Proof. induction l; cbn; congruence. Qed.

Lemma default_mode_invocations w a gs ex fib :
  default_mode a = true ->
  outcome (load_config w (config a)) = Ret (DMapping (Some gs)) ->
  pd_read_csv w "data/examples.csv" = Success ex ->
  pd_read_csv w "data/fibonacci.csv" = Success fib ->
  outcome (main w a) = Ret tt ->
  invocations (trace (main w a))
  = map (pair ex) (filter (selects ex) gs)
    ++ map (pair fib) (filter (selects fib) gs).
Proof.
  intros Hmode Hcfg Hex Hfib H.
  assert (E : main w a =
    (config <- load_config w (config a) ;;
     df_examples <- load_dataframe w "data/examples.csv" ;;
     graphs <- subscript_graphs config ;;
     examples_graphs <- matching_graphs df_examples graphs ;;
     for_each examples_graphs (generate_graph w df_examples) ;;
     df_fibonacci <- load_dataframe w "data/fibonacci.csv" ;;
     graphs <- subscript_graphs config ;;
     fibonacci_graphs <- matching_graphs df_fibonacci graphs ;;
     for_each fibonacci_graphs (generate_graph w df_fibonacci))).
  { unfold main, default_mode in *.
    destruct (input a) as [[|c r]|]; try reflexivity; discriminate. }
  rewrite E in *. clear E.
  apply bind_ret_inv in H as (cfg & Hcfg' & H & ->).
  rewrite Hcfg in Hcfg'. injection Hcfg' as <-.
  apply bind_ret_inv in H as (ex' & Hex' & H & ->).
  apply load_dataframe_ret in Hex'. rewrite Hex in Hex'. injection Hex' as <-.
  apply bind_ret_inv in H as (gs' & Hgs & H & ->).
  cbn in Hgs. injection Hgs as <-.
  apply bind_ret_inv in H as (sel & Hsel & H & ->).
  apply matching_graphs_ret in Hsel. subst sel.
  apply bind_ret_inv in H as ([] & Hloop1 & H & ->).
  apply bind_ret_inv in H as (fib' & Hfib' & H & ->).
  apply load_dataframe_ret in Hfib'. rewrite Hfib in Hfib'. injection Hfib' as <-.
  apply bind_ret_inv in H as (gs' & Hgs & H & ->).
  cbn in Hgs. injection Hgs as <-.
  apply bind_ret_inv in H as (sel & Hsel & H & ->).
  apply matching_graphs_ret in Hsel. subst sel.
  rewrite !invocations_app.
  rewrite load_config_invocations, !load_dataframe_invocations.
  rewrite !matching_graphs_trace.
  rewrite (for_each_generate_invocations _ _ _ Hloop1).
  rewrite (for_each_generate_invocations _ _ _ H).
  reflexivity.
Qed.

(** C1, as the code has it.  In default mode, on a run that completes
    normally, [generate_graph] is invoked for the specifications whose x
    column [data/examples.csv] has, in configuration order and on that
    table, and then for those whose x column [data/fibonacci.csv] has, on
    that table.  A specification is thus rendered once for each default
    table that has its x column: one listed once whose x column is in both
    tables is invoked exactly twice. *)
Theorem default_mode_renders_once_per_dataset w a gs ex fib :
  default_mode a = true ->
  outcome (load_config w (config a)) = Ret (DMapping (Some gs)) ->
  pd_read_csv w "data/examples.csv" = Success ex ->
  pd_read_csv w "data/fibonacci.csv" = Success fib ->
  outcome (main w a) = Ret tt ->
  invocations (trace (main w a))
  = map (pair ex) (filter (selects ex) gs)
    ++ map (pair fib) (filter (selects fib) gs)
  /\ (forall s,
        calls_of s (trace (main w a))
        = ((if selects ex s then count_occ spec_eq_dec gs s else 0)
           + (if selects fib s then count_occ spec_eq_dec gs s else 0))%nat)
  /\ (forall s,
        count_occ spec_eq_dec gs s = 1%nat ->
        selects ex s = true -> selects fib s = true ->
        calls_of s (trace (main w a)) = 2%nat).
Proof.
  intros Hmode Hcfg Hex Hfib H.
  pose proof (default_mode_invocations w a gs ex fib Hmode Hcfg Hex Hfib H) as E.
  assert (C : forall s,
        calls_of s (trace (main w a))
        = ((if selects ex s then count_occ spec_eq_dec gs s else 0)
           + (if selects fib s then count_occ spec_eq_dec gs s else 0))%nat).
  { intros s. unfold calls_of. rewrite E, map_app, !map_snd_pair.
    rewrite count_occ_app, !count_occ_filter. reflexivity. }
  repeat split; auto.
  intros s Hc Hse Hsf. rewrite C, Hse, Hsf, Hc. reflexivity.
Qed.

Lemma bind_no_exit {A B} (m : Run A) (f : A -> Run B) :
  no_exit m -> (forall a, no_exit (f a)) -> no_exit (bind m f).
Proof.
  intros Hm Hf c H. apply bind_exit_inv in H as [H|(a & _ & H)].
  - exact (Hm c H).
  - exact (Hf a c H).
Qed.

Lemma try_except_no_exit {A} (m : Run A) h :
  no_exit m -> (forall e, no_exit (h e)) -> no_exit (try_except m h).
Proof.
  intros Hm Hh c. unfold try_except.
  destruct (outcome m) eqn:E; cbn.
  - rewrite E. discriminate.
  - apply Hh.
  - exfalso. exact (Hm _ E).
Qed.

Lemma try_finally_no_exit {A} (m : Run A) fin :
  no_exit m -> no_exit fin -> no_exit (try_finally m fin).
Proof.
  intros Hm Hf c. cbn. destruct (outcome fin) eqn:E; try discriminate.
  - apply Hm.
  - intros H. apply (Hf c). congruence.
Qed.

Lemma for_each_no_exit {A} (xs : list A) body :
  (forall x, no_exit (body x)) -> no_exit (for_each xs body).
Proof.
  intros Hb. induction xs as [|x rest IH]; cbn [for_each].
  - intros c. discriminate.
  - apply bind_no_exit; auto.
Qed.

Lemma getitem_no_exit {A} key (v : option A) : no_exit (getitem key v).
Proof. intros c. destruct v; discriminate. Qed.

Lemma df_getitem_no_exit df name : no_exit (df_getitem df name).
Proof. intros c. unfold df_getitem. destruct (df_lookup df name); discriminate. Qed.

Lemma emit_no_exit e : no_exit (emit e).
Proof. intros c. discriminate. Qed.

Lemma ret_no_exit {A} (a : A) : no_exit (ret a).
Proof. intros c. discriminate. Qed.

Lemma draw_no_exit w call : no_exit (draw w call).
Proof. intros c. rewrite draw_run. cbn. destruct (plt_draw w call); discriminate. Qed.

Lemma size_figure_no_exit w gc : no_exit (size_figure w gc).
Proof.
  intros c. unfold size_figure.
  destruct (figure_size gc) as [sz|]; [|discriminate].
  rewrite figure_run. cbn. destruct (plt_figure w sz); discriminate.
Qed.

Lemma draw_series_no_exit w df gc x ys : no_exit (draw_series w df gc x ys).
Proof.
  induction ys as [|y rest IH]; cbn [draw_series]; [apply ret_no_exit|].
  apply bind_no_exit; [apply df_getitem_no_exit|intros s].
  apply bind_no_exit; [apply getitem_no_exit|intros k].
  repeat match goal with
         | |- context [if ?b then _ else _] => destruct b
         end;
    (apply bind_no_exit;
     [first [apply draw_no_exit|apply emit_no_exit]
     |intros _; auto using ret_no_exit]).
Qed.

Lemma finish_graph_no_exit w gc : no_exit (finish_graph w gc).
Proof.
  unfold finish_graph, makedirs, savefig, print.
  repeat first
    [ apply bind_no_exit; [|intros ?]
    | apply try_finally_no_exit
    | apply try_except_no_exit; [|intros ?]
    | apply getitem_no_exit
    | apply emit_no_exit
    | apply ret_no_exit
    | match goal with
      | |- context [match ?x with _ => _ end] => destruct x
      end
    | intros c; discriminate ].
Qed.

Lemma generate_graph_no_exit w df gc : no_exit (generate_graph w df gc).
Proof.
  unfold generate_graph.
  apply bind_no_exit; [apply emit_no_exit|intros _].
  apply bind_no_exit; [apply emit_no_exit|intros _].
  apply bind_no_exit; [apply size_figure_no_exit|intros _].
  apply bind_no_exit; [apply getitem_no_exit|intros xc].
  apply bind_no_exit; [apply df_getitem_no_exit|intros x].
  apply bind_no_exit; [apply getitem_no_exit|intros ycs].
  apply bind_no_exit; [apply draw_series_no_exit|intros [|]].
  - apply finish_graph_no_exit.
  - apply ret_no_exit.
Qed.

Lemma subscript_graphs_no_exit d : no_exit (subscript_graphs d).
Proof. intros c. destruct d as [| | |[g|]]; discriminate. Qed.

Lemma load_config_exit w p c :
  outcome (load_config w p) = Exit c -> c = 1%Z /\ config_load_fails w p.
Proof.
  unfold load_config, try_except, config_load_fails.
  destruct (outcome (read_config w p)) as [d|e|c'] eqn:E; cbn.
  - rewrite E. discriminate.
  - destruct (cls e) eqn:Hc; cbn; intros H; try discriminate;
      injection H as <-; eauto.
  - unfold read_config in E. intros _. exfalso.
    apply bind_exit_inv in E as [E|(f & _ & E)];
      [destruct (open_file w p)|destruct (yaml_safe_load w f)]; discriminate.
Qed.

Lemma load_config_ret w p d :
  outcome (load_config w p) = Ret d -> outcome (read_config w p) = Ret d.
Proof.
  unfold load_config, try_except.
  destruct (outcome (read_config w p)) as [d'|e|c'] eqn:E; cbn.
  - now rewrite E.
  - destruct (cls e); cbn; discriminate.
  - rewrite E. discriminate.
Qed.

Lemma load_dataframe_exit w p c :
  outcome (load_dataframe w p) = Exit c -> c = 1%Z /\ dataset_load_fails w p.
Proof.
  unfold load_dataframe, try_except, dataset_load_fails.
  destruct (pd_read_csv w p) as [d|e]; cbn; [discriminate|].
  destruct (cls e); cbn; intros H; injection H as <-; eauto.
Qed.

Lemma in_datasets_input a c r :
  input a = Some (String c r) -> datasets a = [String c r].
Proof. unfold datasets. now intros ->. Qed.

Lemma in_datasets_default a :
  default_mode a = true ->
  datasets a = ["data/examples.csv"; "data/fibonacci.csv"].
Proof.
  unfold datasets, default_mode. destruct (input a) as [[|c r]|]; auto.
  discriminate.
Qed.

Lemma main_exit w a c :
  outcome (main w a) = Exit c -> c = 1%Z /\ load_failure w a.
Proof.
  unfold main, load_failure. intros H.
  apply bind_exit_inv in H as [H|(cfg & _ & H)].
  { apply load_config_exit in H as [-> H]. auto. }
  assert (Hloop : forall df gs,
    no_exit (for_each gs (generate_graph w df))).
  { intros df gs. apply for_each_no_exit. intros g. apply generate_graph_no_exit. }
  destruct (input a) as [[|ch r]|] eqn:Hin.
  2:{ apply bind_exit_inv in H as [H|(df & _ & H)].
      - apply load_dataframe_exit in H as [-> H]. split; auto.
        right. exists (String ch r). rewrite (in_datasets_input a ch r Hin).
        split; [now left|exact H].
      - exfalso. revert H.
        apply bind_no_exit; [apply subscript_graphs_no_exit|intros gs].
        apply for_each_no_exit. intros g.
        apply bind_no_exit; [apply getitem_no_exit|intros xc].
        destruct (in_columns xc df);
          [apply generate_graph_no_exit|apply ret_no_exit]. }
  all: assert (Hd : datasets a = ["data/examples.csv"; "data/fibonacci.csv"])
    by (unfold datasets; now rewrite Hin).
  all: rewrite Hd.
  all: apply bind_exit_inv in H as [H|(ex & _ & H)];
    [apply load_dataframe_exit in H as [-> H]; split; auto;
     right; exists "data/examples.csv"; split; [now left|exact H]|].
  all: apply bind_exit_inv in H as [H|(gs & _ & H)];
    [now apply subscript_graphs_no_exit in H|].
  all: apply bind_exit_inv in H as [H|(sel & _ & H)];
    [now apply matching_graphs_no_exit in H|].
  all: apply bind_exit_inv in H as [H|([] & _ & H)];
    [now apply Hloop in H|].
  all: apply bind_exit_inv in H as [H|(fib & _ & H)];
    [apply load_dataframe_exit in H as [-> H]; split; auto;
     right; exists "data/fibonacci.csv"; split; [right; now left|exact H]|].
  all: apply bind_exit_inv in H as [H|(gs' & _ & H)];
    [now apply subscript_graphs_no_exit in H|].
  all: apply bind_exit_inv in H as [H|(sel' & _ & H)];
    [now apply matching_graphs_no_exit in H|].
  all: now apply Hloop in H.
Qed.

Lemma main_ret w a :
  outcome (main w a) = Ret tt -> ~ load_failure w a.
Proof.
  unfold main. intros H.
  apply bind_ret_inv in H as (cfg & Hcfg & H & _).
  apply load_config_ret in Hcfg.
  assert (Hc : ~ config_load_fails w (config a)).
  { intros (e & He & _). congruence. }
  assert (Hd : forall p df, outcome (load_dataframe w p) = Ret df ->
                            ~ dataset_load_fails w p).
  { intros p df Hp [e He]. apply load_dataframe_ret in Hp. congruence. }
  unfold load_failure, datasets.
  destruct (input a) as [[|ch r]|].
  2:{ apply bind_ret_inv in H as (df & Hdf & _).
      intros [F|(p & [<-|[]] & F)]; [auto|]. exact (Hd _ _ Hdf F). }
  all: apply bind_ret_inv in H as (ex & Hex & H & _).
  all: apply bind_ret_inv in H as (gs & _ & H & _).
  all: apply bind_ret_inv in H as (sel & _ & H & _).
  all: apply bind_ret_inv in H as ([] & _ & H & _).
  all: apply bind_ret_inv in H as (fib & Hfib & _).
  all: intros [F|(p & [<-|[<-|[]]] & F)]; auto.
  all: first [exact (Hd _ _ Hex F) | exact (Hd _ _ Hfib F)].
Qed.

Lemma finish_graph_outcome_savefig w sf gc :
  outcome (finish_graph (with_savefig w sf) gc) = outcome (finish_graph w gc).
Proof.
  unfold finish_graph, makedirs, savefig.
  destruct (title gc); cbn; [|reflexivity].
  destruct (x_column gc); cbn; [|reflexivity].
  destruct (y_columns gc); cbn; [|reflexivity].
  destruct (output_file gc) as [out|]; cbn; [|reflexivity].
  destruct (nonempty (dirname out)); cbn;
    [destruct (os_makedirs w (dirname out)); cbn; [reflexivity|]|];
    destruct (sf out), (plt_savefig w out); reflexivity.
Qed.

Lemma generate_graph_outcome_savefig w sf df gc :
  outcome (generate_graph (with_savefig w sf) df gc)
  = outcome (generate_graph w df gc).
Proof.
  unfold generate_graph.
  repeat (apply bind_outcome_ext; [reflexivity|intros ?]).
  match goal with
  | |- context [if ?b then _ else _] => destruct b
  end; [apply finish_graph_outcome_savefig|reflexivity].
Qed.

Lemma for_each_outcome_ext {A} (xs : list A) body body' :
  (forall x, outcome (body x) = outcome (body' x)) ->
  outcome (for_each xs body) = outcome (for_each xs body').
Proof.
  intros Hb. induction xs as [|x rest IH]; cbn [for_each]; [reflexivity|].
  apply bind_outcome_ext; auto.
Qed.

Lemma main_outcome_savefig w sf a :
  outcome (main (with_savefig w sf) a) = outcome (main w a).
Proof.
  unfold main.
  apply bind_outcome_ext; [reflexivity|intros cfg].
  destruct (input a) as [[|ch r]|].
  2:{ apply bind_outcome_ext; [reflexivity|intros df].
      apply bind_outcome_ext; [reflexivity|intros gs].
      apply for_each_outcome_ext. intros g.
      apply bind_outcome_ext; [reflexivity|intros xc].
      destruct (in_columns xc df);
        [apply generate_graph_outcome_savefig|reflexivity]. }
  all: apply bind_outcome_ext; [reflexivity|intros ex].
  all: apply bind_outcome_ext; [reflexivity|intros gs].
  all: apply bind_outcome_ext; [reflexivity|intros sel].
  all: apply bind_outcome_ext;
    [apply for_each_outcome_ext; intros g;
     apply generate_graph_outcome_savefig|intros _].
  all: apply bind_outcome_ext; [reflexivity|intros fib].
  all: apply bind_outcome_ext; [reflexivity|intros gs'].
  all: apply bind_outcome_ext; [reflexivity|intros sel'].
  all: apply for_each_outcome_ext; intros g;
    apply generate_graph_outcome_savefig.
Qed.

Lemma read_config_trace w p : trace (read_config w p) = [].
Proof.
  unfold read_config, bind.
  destruct (open_file w p) as [f|e]; cbn; [|reflexivity].
  destruct (yaml_safe_load w f); reflexivity.
Qed.

Lemma load_dataframe_failed w p e :
  pd_read_csv w p = Failure e ->
  exists msg, load_dataframe w p = mkRun [Print msg] (Exit 1).
Proof.
  intros H. unfold load_dataframe, try_except. rewrite H. cbn.
  destruct (cls e); cbn; eexists; reflexivity.
Qed.

Lemma load_config_failed w p :
  config_load_fails w p ->
  exists msg,
    load_config w p = mkRun [Print msg] (Exit 1)
    /\ (msg = config_not_found_msg p \/ exists d, msg = config_parse_msg d).
Proof.
  intros (e & Hr & Hc).
  pose proof (read_config_trace w p) as Ht.
  unfold load_config, try_except. rewrite Hr, Ht.
  destruct Hc as [Hc|Hc]; rewrite Hc; cbn; eexists;
    (split; [reflexivity|]); [now left|right; now exists (detail e)].
Qed.

Lemma main_config_failed w a :
  config_load_fails w (config a) -> outcome (main w a) = Exit 1.
Proof.
  intros H. destruct (load_config_failed w _ H) as (msg & E & _).
  unfold main. rewrite E. reflexivity.
Qed.

Lemma main_first_dataset_failed w a cfg :
  outcome (load_config w (config a)) = Ret cfg ->
  dataset_load_fails w (first_dataset a) ->
  outcome (main w a) = Exit 1.
Proof.
  intros Hc [e He].
  destruct (load_dataframe_failed w _ e He) as [msg Hl].
  unfold main, first_dataset in *. unfold bind at 1. rewrite Hc. cbn zeta.
  destruct (input a) as [[|ch r]|]; unfold bind at 1; rewrite Hl; reflexivity.
Qed.

(** C5, as the code has it.  The process ends with status 0 or 1.  It
    ends with 0 exactly when [main] returns, which includes runs with
    charts of an unsupported kind and charts whose save failed.
    [sys.exit] is reached only with code 1 and only when the configuration
    failed to load (missing or malformed) or a table that [main] loads
    failed to load; a configuration failure always ends the run with
    [sys.exit(1)], and so does a failure of the first table once the
    configuration is loaded.  Status 1 has a second source: an exception
    that escapes [main] (a [KeyError] for a column or key, a [TypeError]
    for a configuration that is no mapping, an unhandled error while
    reading the configuration), so status 1 means a load failure or an
    escaped exception.  What [savefig] answers never changes how the run
    ends; [generate_graph] never exits, and a call whose save failed
    returns normally. *)
Theorem exit_status_discipline w a :
  (exit_status (outcome (main w a)) = 0%Z
   \/ exit_status (outcome (main w a)) = 1%Z)
  /\ (exit_status (outcome (main w a)) = 0%Z <-> outcome (main w a) = Ret tt)
  /\ (forall c, outcome (main w a) = Exit c -> c = 1%Z /\ load_failure w a)
  /\ (config_load_fails w (config a) -> outcome (main w a) = Exit 1)
  /\ (forall cfg, outcome (load_config w (config a)) = Ret cfg ->
        dataset_load_fails w (first_dataset a) ->
        outcome (main w a) = Exit 1)
  /\ (load_failure w a ->
        outcome (main w a) = Exit 1 \/ exists e, outcome (main w a) = Raise e)
  /\ (exit_status (outcome (main w a)) = 1%Z <->
        load_failure w a \/ exists e, outcome (main w a) = Raise e)
  /\ (forall sf, outcome (main (with_savefig w sf) a) = outcome (main w a))
  /\ (forall df gc code, outcome (generate_graph w df gc) <> Exit code)
  /\ (forall df gc p e,
        In (Savefig p (Some e)) (trace (generate_graph w df gc)) ->
        outcome (generate_graph w df gc) = Ret tt).
Proof.
  assert (Hfail : forall df gc p e,
        In (Savefig p (Some e)) (trace (generate_graph w df gc)) ->
        outcome (generate_graph w df gc) = Ret tt).
  { intros df gc p e Hin.
    apply generate_graph_saved in Hin
      as (t & xc & ycs & drawn & _ & _ & _ & _ & _ & E).
    now rewrite E. }
  assert (Hgg : forall df gc code, outcome (generate_graph w df gc) <> Exit code).
  { intros df gc. apply generate_graph_no_exit. }
  assert (Hexit : forall c, outcome (main w a) = Exit c ->
                             c = 1%Z /\ load_failure w a)
    by (intros c; apply main_exit).
  assert (Hload : load_failure w a ->
                  outcome (main w a) = Exit 1
                  \/ exists e, outcome (main w a) = Raise e).
  { intros F. destruct (outcome (main w a)) as [[]|e|c] eqn:E.
    - exfalso. exact (main_ret w a E F).
    - right. now exists e.
    - left. destruct (main_exit w a c E) as [-> _]. reflexivity. }
  split.
  { destruct (outcome (main w a)) as [[]|e|c] eqn:E; cbn [exit_status].
    - now left.
    - now right.
    - right. now destruct (Hexit c eq_refl). }
  split.
  { destruct (outcome (main w a)) as [[]|e|c] eqn:E; cbn [exit_status].
    - split; reflexivity.
    - split; discriminate.
    - destruct (Hexit c eq_refl) as [-> _]. split; discriminate. }
  split; [exact Hexit|].
  split; [apply main_config_failed|].
  split; [apply main_first_dataset_failed|].
  split; [exact Hload|].
  split.
  { split.
    - destruct (outcome (main w a)) as [[]|e|c] eqn:E; cbn [exit_status].
      + discriminate.
      + intros _. right. now exists e.
      + intros _. left. now destruct (Hexit c eq_refl).
    - intros [F|[e F]].
      + destruct (Hload F) as [->|[e ->]]; reflexivity.
      + now rewrite F. }
  split; [intros sf; apply main_outcome_savefig|].
  split; [exact Hgg|exact Hfail].
Qed.

Lemma append_cancel_l (s a b : string) : (s ++ a = s ++ b)%string -> a = b.
Proof.
  induction s as [|c s IH]; cbn; intros H; [exact H|].
  injection H as H. auto.
Qed.

Lemma data_messages_distinct p d :
  data_not_found_msg p <> data_empty_msg p
  /\ data_not_found_msg p <> data_generic_msg p d
  /\ data_empty_msg p <> data_generic_msg p d.
Proof.
  unfold data_not_found_msg, data_empty_msg, data_generic_msg.
  repeat split; intros H.
  - do 2 apply append_cancel_l in H. discriminate.
  - cbn in H. discriminate.
  - cbn in H. discriminate.
Qed.

(** C6, as the code has it.  [load_dataframe] returns the table when
    [pd.read_csv] does, printing nothing.  When the read raises, it prints
    exactly one message and exits with status 1, in one of three ways,
    told apart by the class of the exception: [FileNotFoundError] (the
    path names no file) gives the not-found message, [EmptyDataError] the
    empty message, and every other exception, that of a path which exists
    but cannot be read (permission denied, a directory) as much as a parse
    failure, the generic message that carries the exception's text.  The
    three messages for a path are pairwise different, and a table is
    returned only when the read succeeded. *)
Theorem load_dataframe_failure_modes w p :
  match pd_read_csv w p with
  | Success df => load_dataframe w p = mkRun [] (Ret df)
  | Failure e =>
      exists msg,
        load_dataframe w p = mkRun [Print msg] (Exit 1)
        /\ ((cls e = FileNotFoundError /\ msg = data_not_found_msg p)
            \/ (cls e = EmptyDataError /\ msg = data_empty_msg p)
            \/ (cls e <> FileNotFoundError /\ cls e <> EmptyDataError
                /\ msg = data_generic_msg p (detail e)))
  end
  /\ (forall df, outcome (load_dataframe w p) = Ret df ->
                 pd_read_csv w p = Success df)
  /\ (forall d,
        data_not_found_msg p <> data_empty_msg p
        /\ data_not_found_msg p <> data_generic_msg p d
        /\ data_empty_msg p <> data_generic_msg p d).
Proof.
  split; [|split; [apply load_dataframe_ret|intros d; apply data_messages_distinct]].
  unfold load_dataframe, try_except.
  destruct (pd_read_csv w p) as [df|e]; cbn; [reflexivity|].
  destruct (cls e) eqn:Hc; cbn; eexists; (split; [reflexivity|]);
    first [ left; split; [reflexivity|reflexivity]
          | right; left; split; [reflexivity|reflexivity]
          | right; right; repeat split; discriminate || reflexivity ].
Qed.

(** C7, as the code has it.  When opening the configuration path raises
    [FileNotFoundError], [load_config] prints the message that quotes the
    path and exits with status 1; when the file opens and the parser
    raises a [YAMLError], it prints the parser's text and exits with
    status 1.  Any other exception, that of a path which exists but cannot
    be read included, is not handled: it leaves [load_config] as it is,
    with nothing printed and no exit.  A configuration is returned only
    when the file opened and the parser returned that very document. *)
Theorem load_config_failures w p :
  (forall e, open_file w p = Failure e -> cls e = FileNotFoundError ->
     load_config w p = mkRun [Print (config_not_found_msg p)] (Exit 1))
  /\ (forall content e,
        open_file w p = Success content ->
        yaml_safe_load w content = Failure e -> cls e = YAMLError ->
        load_config w p = mkRun [Print (config_parse_msg (detail e))] (Exit 1))
  /\ (forall d, outcome (load_config w p) = Ret d ->
        exists content, open_file w p = Success content
                        /\ yaml_safe_load w content = Success d)
  /\ (forall e, outcome (read_config w p) = Raise e ->
        cls e <> FileNotFoundError -> cls e <> YAMLError ->
        load_config w p = mkRun [] (Raise e)).
Proof.
  assert (Hother : forall e, outcome (read_config w p) = Raise e ->
        cls e <> FileNotFoundError -> cls e <> YAMLError ->
        load_config w p = mkRun [] (Raise e)).
  { intros e Hr Hf Hy. pose proof (read_config_trace w p) as Ht.
    unfold load_config, try_except. rewrite Hr, Ht.
    destruct (cls e); try reflexivity; congruence. }
  unfold load_config, read_config, try_except.
  split; [|split; [|split; [|exact Hother]]].
  - intros e Ho Hc. rewrite Ho. cbn. rewrite Hc. reflexivity.
  - intros content e Ho Hy Hc. rewrite Ho. cbn. rewrite Hy. cbn. rewrite Hc.
    reflexivity.
  - intros d. destruct (open_file w p) as [content|e]; cbn.
    + destruct (yaml_safe_load w content) as [d'|e] eqn:Hy; cbn.
      * intros H. injection H as <-. exists content. auto.
      * destruct (cls e); cbn; discriminate.
    + destruct (cls e); cbn; discriminate.
Qed.

Lemma bind_silent {A B} (m : Run A) (f : A -> Run B) a :
  m = mkRun [] (Ret a) -> bind m f = f a.
Proof. intros ->. unfold bind. cbn. now destruct (f a). Qed.

(** C10.  When the configuration file opens and parses to the empty
    document, [load_config] returns [None] and prints nothing.  [main]
    then loads its first table, and once that has loaded the subscript
    [config['graphs']] raises the [TypeError] of subscripting [None],
    which escapes [main] with nothing printed.  The run never prints a
    configuration error, and it exits only if that table fails to load. *)
Theorem empty_document_crashes_late w a content :
  open_file w (config a) = Success content ->
  yaml_safe_load w content = Success DNull ->
  load_config w (config a) = mkRun [] (Ret DNull)
  /\ (forall df, pd_read_csv w (first_dataset a) = Success df ->
        main w a = mkRun [] (Raise none_not_subscriptable))
  /\ (forall c, outcome (main w a) = Exit c ->
        dataset_load_fails w (first_dataset a))
  /\ ~ In (Print (config_not_found_msg (config a))) (trace (main w a))
  /\ (forall d, ~ In (Print (config_parse_msg d)) (trace (main w a))).
Proof.
  intros Ho Hy.
  assert (Hc : load_config w (config a) = mkRun [] (Ret DNull)).
  { unfold load_config, read_config, try_except. rewrite Ho. cbn.
    rewrite Hy. reflexivity. }
  assert (Hm : main w a =
    (df <- load_dataframe w (first_dataset a) ;;
     (_ <- subscript_graphs DNull ;; ret tt))).
  { unfold main, first_dataset. rewrite (bind_silent _ _ _ Hc).
    destruct (input a) as [[|ch r]|]; reflexivity. }
  split; [exact Hc|]. split; [|split; [|split]].
  - intros df Hd. rewrite Hm. unfold load_dataframe, try_except.
    rewrite Hd. reflexivity.
  - intros c. rewrite Hm. intros H.
    apply bind_exit_inv in H as [H|(df & _ & H)].
    + now apply load_dataframe_exit in H.
    + cbn in H. discriminate.
  - rewrite Hm. unfold load_dataframe, try_except, config_not_found_msg.
    destruct (pd_read_csv w (first_dataset a)) as [df|e]; cbn; [tauto|].
    destruct (cls e); cbn; intros [H|[]]; discriminate.
  - intros d. rewrite Hm. unfold load_dataframe, try_except, config_parse_msg.
    destruct (pd_read_csv w (first_dataset a)) as [df|e]; cbn; [tauto|].
    destruct (cls e); cbn; intros [H|[]]; discriminate.
Qed.


(** C3.  One call of [generate_graph] with the unsupported kind [pie],
    on a table that has every column the specification names: the call
    resets the figure, opens the sized figure, prints the warning and
    returns, and [plt.close()] is never reached, so the figures it opened
    stay open.  Two such charts in one run leave three figures open, and
    the run still ends normally. *)
Theorem unsupported_kind_leaves_figure_open :
  let w := sample_world (graphs_doc [pie_spec; pie_spec]) in
  let r := generate_graph w examples_df pie_spec in
  let run := main w (mkArgs (Some "data/examples.csv") "config.yaml") in
  outcome r = Ret tt
  /\ trace r = [Call examples_df pie_spec; Clf; Figure [8; 6];
                Print (unsupported_warning "pie")]
  /\ ~ In Close (trace r)
  /\ live_figures 0 (trace r) = 2%nat
  /\ outcome run = Ret tt
  /\ ~ In Close (trace run)
  /\ live_figures 0 (trace run) = 3%nat.
Proof.
  vm_compute.
  repeat split; try reflexivity; intros H;
    repeat (destruct H as [H|H]; [discriminate H|]); exact H.
Qed.

(** ** Concrete runs *)

Lemma rendered_twice_counterexample :
  let r := main (sample_world (graphs_doc [shared_spec])) default_args in
  default_mode default_args = true
  /\ x_column shared_spec = Some "n"
  /\ in_columns "n" examples_df = true
  /\ in_columns "n" fibonacci_df = true
  /\ outcome r = Ret tt
  /\ invocations (trace r)
     = [(examples_df, shared_spec); (fibonacci_df, shared_spec)]
  /\ calls_of shared_spec (trace r) = 2%nat
  /\ calls_of shared_spec (trace r) <> 1%nat.
Proof. vm_compute. repeat split; discriminate. Qed.


Lemma default_mode_renders_once_per_dataset_witness :
  calls_of shared_spec
    (trace (main (sample_world (graphs_doc [shared_spec])) default_args))
  = 2%nat.
Proof.
  refine (proj2 (proj2
    (default_mode_renders_once_per_dataset
       (sample_world (graphs_doc [shared_spec])) default_args
       [shared_spec] examples_df fibonacci_df _ _ _ _ _)) shared_spec _ _ _);
    vm_compute; reflexivity.
Defined.


Lemma unsupported_kind_aborts_witness :
  supported "pie" = false
  /\ figure_size pie_spec = Some [8; 6]
  /\ plt_figure (sample_world DNull) [8; 6] = None
  /\ in_columns "n" examples_df = true
  /\ in_columns "value" examples_df = true
  /\ outcome (generate_graph (sample_world DNull) examples_df pie_spec)
     = Ret tt.
Proof.
  do 5 (split; [reflexivity|]).
  apply (unsupported_kind_aborts (sample_world DNull) examples_df pie_spec
           "pie" "n" "value" []); try reflexivity.
  intros sz H. injection H as <-. reflexivity.
Defined.

Lemma exit_status_discipline_witness :
  let w := sample_world (graphs_doc [pie_spec; bar_spec]) in
  let a := mkArgs (Some "data/examples.csv") "config.yaml" in
  exit_status (outcome (main w a)) = 0%Z
  /\ outcome (main w (mkArgs None "missing.yaml")) = Exit 1.
Proof.
  intros w a. split.
  - apply (proj1 (proj2 (exit_status_discipline w a))).
    vm_compute. reflexivity.
  - apply (proj1 (proj2 (proj2 (proj2
              (exit_status_discipline w (mkArgs None "missing.yaml")))))).
    exists (no_such_file "missing.yaml"). split; [reflexivity|now left].
Defined.

Lemma unreadable_table_counterexample :
  pd_read_csv locked_table_world "data/locked.csv"
  = Failure (permission_denied "data/locked.csv")
  /\ load_dataframe locked_table_world "data/locked.csv"
     = mkRun [Print (data_generic_msg "data/locked.csv"
                       (detail (permission_denied "data/locked.csv")))]
             (Exit 1)
  /\ ~ In (Print (data_not_found_msg "data/locked.csv"))
          (trace (load_dataframe locked_table_world "data/locked.csv")).
Proof.
  split; [reflexivity|]. split; [reflexivity|].
  vm_compute. intros [H|[]]. discriminate H.
Qed.

Lemma unreadable_config_counterexample :
  open_file unreadable_config_world "config.yaml"
  = Failure (permission_denied "config.yaml")
  /\ load_config unreadable_config_world "config.yaml"
     = mkRun [] (Raise (permission_denied "config.yaml"))
  /\ main unreadable_config_world default_args
     = mkRun [] (Raise (permission_denied "config.yaml")).
Proof. repeat split. Qed.

Lemma status_one_without_load_failure_counterexample :
  let w := sample_world (graphs_doc [missing_y_spec]) in
  let a := mkArgs (Some "data/examples.csv") "config.yaml" in
  outcome (main w a) = Raise (mkExn KeyError "'total'")
  /\ exit_status (outcome (main w a)) = 1%Z
  /\ ~ load_failure w a.
Proof.
  intros w a. split; [vm_compute; reflexivity|].
  split; [vm_compute; reflexivity|].
  intros [(e & He & _)|(p & Hin & e & He)].
  - vm_compute in He. discriminate He.
  - destruct Hin as [<-|[]]. vm_compute in He. discriminate He.
Qed.

Lemma load_dataframe_failure_modes_witness :
  exists msg,
    load_dataframe (sample_world DNull) "nope.csv"
    = mkRun [Print msg] (Exit 1)
    /\ msg = data_not_found_msg "nope.csv".
Proof.
  destruct (proj1 (load_dataframe_failure_modes (sample_world DNull) "nope.csv"))
    as (msg & E & [[_ M]|[[C _]|(C & _)]]).
  - exists msg. split; assumption.
  - discriminate C.
  - exfalso. apply C. reflexivity.
Defined.

Lemma load_config_failures_witness :
  load_config (sample_world DNull) "missing.yaml"
  = mkRun [Print "Error: Config file 'missing.yaml' not found!"] (Exit 1).
Proof.
  apply (proj1 (load_config_failures (sample_world DNull) "missing.yaml")
           (no_such_file "missing.yaml")); reflexivity.
Defined.


Lemma empty_y_columns_skip_dispatch_witness :
  supported "pie" = false
  /\ kind pie_empty_spec = Some "pie"
  /\ writes_file
       (trace (generate_graph (sample_world DNull) examples_df pie_empty_spec))
       "out/pie.png".
Proof.
  repeat split; try reflexivity.
  destruct (empty_y_columns_skip_dispatch (sample_world DNull) examples_df
              pie_empty_spec "n" "Pie" "out/pie.png"
              (fun sz H => ltac:(discriminate H))
              eq_refl eq_refl eq_refl eq_refl eq_refl (fun _ => eq_refl))
    as (_ & _ & _ & _ & _ & _ & Hw).
  apply Hw. reflexivity.
Defined.

Lemma empty_document_crashes_late_witness :
  main (sample_world DNull) default_args
  = mkRun [] (Raise none_not_subscriptable).
Proof.
  destruct (empty_document_crashes_late (sample_world DNull) default_args
              "graphs: ..." eq_refl eq_refl) as (_ & Hm & _).
  apply (Hm examples_df). reflexivity.
Defined.

(** ** The draw loop, column by column *)

Lemma not_in_columns_lookup df name :
  in_columns name df = false -> df_lookup df name = None.
Proof.
  intros H. destruct (df_lookup df name) as [s|] eqn:E; [|reflexivity].
  apply lookup_in_columns in E. congruence.
Qed.

Lemma plotter_supported k f : plotter_of k = Some f -> supported k = true.
Proof.
  unfold plotter_of, supported.
  destruct (String.eqb k "line"), (String.eqb k "plot"),
    (String.eqb k "scatter"), (String.eqb k "bar"); cbn; congruence.
Qed.

Lemma draw_series_step w df gc x k f y s rest :
  kind gc = Some k -> plotter_of k = Some f -> df_lookup df y = Some s ->
  draw_series w df gc x (y :: rest)
  = (draw w (f x s y) ;; draw_series w df gc x rest).
Proof.
  intros Hk Hf Hy. cbn [draw_series]. unfold df_getitem, plotter_of in *.
  rewrite Hy, Hk.
  rewrite (bind_silent (ret s) _ s eq_refl).
  rewrite (bind_silent (getitem "kind" (Some k)) _ k eq_refl).
  destruct (String.eqb k "line"); [injection Hf as <-; reflexivity|].
  destruct (String.eqb k "plot"); [injection Hf as <-; reflexivity|].
  destruct (String.eqb k "scatter"); [injection Hf as <-; reflexivity|].
  destruct (String.eqb k "bar"); [injection Hf as <-; reflexivity|].
  discriminate.
Qed.

Lemma drawn_series_cons df f x y s rest :
  df_lookup df y = Some s ->
  drawn_series df f x (y :: rest) = f x s y :: drawn_series df f x rest.
Proof. intros H. unfold drawn_series. cbn. now rewrite H. Qed.

Lemma draw_series_supported w df gc x k f ys :
  kind gc = Some k -> plotter_of k = Some f ->
  Forall (fun y => in_columns y df = true) ys ->
  Forall (fun e => plt_draw w e = None) (drawn_series df f x ys) ->
  draw_series w df gc x ys = mkRun (drawn_series df f x ys) (Ret true).
Proof.
  intros Hk Hf. induction 1 as [|y rest Hy _ IH]; intros Hd; [reflexivity|].
  apply in_columns_lookup in Hy as [s Hs].
  rewrite (drawn_series_cons df f x y s rest Hs) in *.
  apply Forall_cons_iff in Hd as [Hd1 Hd2].
  rewrite (draw_series_step w df gc x k f y s rest Hk Hf Hs), draw_then, Hd1.
  now rewrite (IH Hd2).
Qed.

Lemma draw_series_missing w df gc x k f pre bad post :
  (pre <> [] -> kind gc = Some k /\ plotter_of k = Some f) ->
  Forall (fun y => in_columns y df = true) pre ->
  Forall (fun e => plt_draw w e = None) (drawn_series df f x pre) ->
  in_columns bad df = false ->
  draw_series w df gc x (pre ++ bad :: post)
  = mkRun (drawn_series df f x pre) (Raise (key_error bad)).
Proof.
  intros Hk Hpre Hd Hbad. apply not_in_columns_lookup in Hbad.
  induction Hpre as [|y rest Hy _ IH].
  - cbn. unfold df_getitem. rewrite Hbad. reflexivity.
  - destruct Hk as [Hk Hf]; [discriminate|].
    apply in_columns_lookup in Hy as [s Hs].
    rewrite (drawn_series_cons df f x y s rest Hs) in *.
    apply Forall_cons_iff in Hd as [Hd1 Hd2].
    cbn [app].
    rewrite (draw_series_step w df gc x k f y s _ Hk Hf Hs), draw_then, Hd1.
    now rewrite IH by (intros; auto).
Qed.

Lemma drawn_series_drawing df f x ys k :
  plotter_of k = Some f ->
  Forall (fun e => is_drawing e = true) (drawn_series df f x ys).
Proof.
  intros Hf. unfold drawn_series.
  induction ys as [|y rest IH]; cbn; [constructor|].
  apply Forall_app. split; [|exact IH].
  destruct (df_lookup df y); [|constructor].
  constructor; [|constructor].
  unfold plotter_of in Hf.
  destruct (String.eqb k "line"); [injection Hf as <-; reflexivity|].
  destruct (String.eqb k "plot"); [injection Hf as <-; reflexivity|].
  destruct (String.eqb k "scatter"); [injection Hf as <-; reflexivity|].
  destruct (String.eqb k "bar"); [injection Hf as <-; reflexivity|].
  discriminate.
Qed.

Lemma drawn_series_labels df f x ys k :
  plotter_of k = Some f ->
  Forall (fun y => in_columns y df = true) ys ->
  series_labels (drawn_series df f x ys) = ys.
Proof.
  intros Hf. unfold series_labels, drawn_series.
  induction 1 as [|y rest Hy _ IH]; [reflexivity|].
  apply in_columns_lookup in Hy as [s Hs].
  cbn. rewrite Hs. cbn. rewrite IH.
  change (y :: rest) with ([y] ++ rest). f_equal.
  unfold plotter_of in Hf.
  destruct (String.eqb k "line"); [injection Hf as <-; reflexivity|].
  destruct (String.eqb k "plot"); [injection Hf as <-; reflexivity|].
  destruct (String.eqb k "scatter"); [injection Hf as <-; reflexivity|].
  destruct (String.eqb k "bar"); [injection Hf as <-; reflexivity|].
  discriminate.
Qed.

(** ** One chart, from the loop's result to the end *)

Lemma finish_graph_no_title w gc :
  title gc = None -> finish_graph w gc = mkRun [] (Raise (key_error "title")).
Proof. intros H. unfold finish_graph. rewrite H. reflexivity. Qed.

Lemma filter_none {A} (f : A -> bool) (l : list A) :
  Forall (fun a => f a = false) l -> filter f l = [].
Proof.
  induction 1 as [|a l Ha _ IH]; cbn; [reflexivity|]. now rewrite Ha.
Qed.

Lemma drawing_not (g : event -> bool) (t : list event) :
  (forall e, is_drawing e = true -> g e = false) ->
  Forall (fun e => is_drawing e = true) t ->
  Forall (fun e => g e = false) t.
Proof. intros Hg. apply Forall_impl. exact Hg. Qed.

Lemma drawing_prefix_clean df gc drawn :
  Forall (fun e => is_drawing e = true) drawn ->
  let tr := [Call df gc; Clf] ++ figure_events gc ++ drawn in
  (forall p failed, ~ In (Savefig p failed) tr) /\ ~ In Close tr.
Proof.
  intros Hd tr. subst tr. unfold figure_events.
  split; [intros p failed Hin|intros Hin];
    (apply in_app_or in Hin as [Hin|Hin];
     [destruct Hin as [Hin|[Hin|[]]]; discriminate|];
     apply in_app_or in Hin as [Hin|Hin];
     [destruct (figure_size gc);
      [destruct Hin as [Hin|[]]; discriminate|destruct Hin]|]).
  - exact (In_drawing_absurd _ (Savefig p failed) Hd eq_refl Hin).
  - exact (In_drawing_absurd _ Close Hd eq_refl Hin).
Qed.

(** X1.  A chart of a supported kind whose x column and y columns are all
    in the table, with [title] and [output_file] present, a creatable
    output directory, a [figure_size] (if any) that [plt.figure] accepts
    and series that the drawing calls accept:
    [generate_graph] returns normally and does, in this
    order, the reset, the sized figure if any, one series per entry of
    [y_columns] in their order (each drawn against the same x series by the
    call that belongs to the kind and labelled with its column name), the
    title, the two axis labels, legend, grid and layout, the directory
    creation if any, the save, the error print if the save failed, and the
    close.  The series labels are the y columns, one series each. *)
Theorem supported_chart_run w df gc k f xc x ycs t out :
  (forall sz, figure_size gc = Some sz -> plt_figure w sz = None) ->
  kind gc = Some k -> plotter_of k = Some f ->
  x_column gc = Some xc -> df_lookup df xc = Some x ->
  y_columns gc = Some ycs ->
  Forall (fun y => in_columns y df = true) ycs ->
  Forall (fun e => plt_draw w e = None) (drawn_series df f x ycs) ->
  title gc = Some t -> output_file gc = Some out ->
  (nonempty (dirname out) = true -> os_makedirs w (dirname out) = None) ->
  let r := generate_graph w df gc in
  r = mkRun ([Call df gc; Clf] ++ figure_events gc
             ++ drawn_series df f x ycs ++ label_events gc t xc ycs
             ++ makedirs_events w out ++ save_events w out) (Ret tt)
  /\ series_labels (trace r) = ycs
  /\ length (filter is_drawing (trace r)) = length ycs.
Proof.
  intros Hfig Hk Hf Hx Hxl Hy Hys Hacc Ht Ho Hm r. subst r.
  rewrite (generate_graph_with_loop w df gc xc x ycs _ _ Hfig Hx Hxl Hy
             (draw_series_supported w df gc x k f ycs Hk Hf Hys Hacc)).
  rewrite (finish_graph_run w gc t xc ycs out Ht Hx Hy Ho Hm).
  cbn [trace outcome].
  split; [reflexivity|].
  pose proof (drawn_series_labels df f x ycs k Hf Hys) as Hl.
  pose proof (drawn_series_drawing df f x ycs k Hf) as Hd.
  split.
  - unfold series_labels in *. rewrite !flat_map_app, Hl.
    unfold figure_events, label_events, makedirs_events, save_events.
    destruct (figure_size gc), (nonempty (dirname out)), (plt_savefig w out);
      cbn; now rewrite app_nil_r.
  - rewrite !filter_app, !length_app.
    assert (Hdl : length (filter is_drawing (drawn_series df f x ycs))
                  = length ycs).
    { rewrite <- Hl at 2. clear Hl Hacc.
      induction (drawn_series df f x ycs) as [|e l IH]; [reflexivity|].
      apply Forall_cons_iff in Hd as [He Hd]. cbn. rewrite He.
      unfold series_labels in *. cbn. rewrite length_app, <- (IH Hd).
      destruct e; try discriminate; reflexivity. }
    rewrite Hdl.
    unfold figure_events, label_events, makedirs_events, save_events.
    destruct (figure_size gc), (nonempty (dirname out)), (plt_savefig w out);
      cbn; lia.
Qed.

(** X2.  A chart of a supported kind one of whose y columns is not in
    the table, with a [figure_size] (if any) that [plt.figure] accepts:
    the series of the columns before it are drawn (the drawing calls
    accepting them), then the lookup raises [KeyError] for that column,
    which escapes [generate_graph]; nothing is saved and the figure is not
    closed. *)
Theorem missing_y_column_raises w df gc k f xc x pre bad post :
  (forall sz, figure_size gc = Some sz -> plt_figure w sz = None) ->
  kind gc = Some k -> plotter_of k = Some f ->
  x_column gc = Some xc -> df_lookup df xc = Some x ->
  y_columns gc = Some (pre ++ bad :: post) ->
  Forall (fun y => in_columns y df = true) pre ->
  Forall (fun e => plt_draw w e = None) (drawn_series df f x pre) ->
  in_columns bad df = false ->
  let r := generate_graph w df gc in
  r = mkRun ([Call df gc; Clf] ++ figure_events gc
             ++ drawn_series df f x pre) (Raise (key_error bad))
  /\ series_labels (trace r) = pre
  /\ (forall p failed, ~ In (Savefig p failed) (trace r))
  /\ ~ In Close (trace r).
Proof.
  intros Hfig Hk Hf Hx Hxl Hy Hpre Hacc Hbad r. subst r.
  rewrite (generate_graph_with_loop w df gc xc x _ _ _ Hfig Hx Hxl Hy
             (draw_series_missing w df gc x k f pre bad post
                (fun _ => conj Hk Hf) Hpre Hacc Hbad)).
  cbn [trace outcome].
  pose proof (drawn_series_labels df f x pre k Hf Hpre) as Hl.
  pose proof (drawn_series_drawing df f x pre k Hf) as Hd.
  split; [reflexivity|]. split; [|split].
  - unfold series_labels in *. rewrite !flat_map_app, Hl.
    unfold figure_events. destruct (figure_size gc); reflexivity.
  - apply (drawing_prefix_clean df gc _ Hd).
  - apply (drawing_prefix_clean df gc _ Hd).
Qed.

(** X3.  The column lookups come before the dispatch on [kind].  Once the
    figure is set up (a [figure_size], if any, that [plt.figure] accepts):
    without the key [x_column], with an x column the table lacks, or with
    a first y column the table lacks, [generate_graph] raises the
    [KeyError] right after the reset and the optional sized figure,
    whatever [kind] is: an unsupported kind then gives no warning. *)
Theorem column_lookups_precede_dispatch w df gc :
  (forall sz, figure_size gc = Some sz -> plt_figure w sz = None) ->
  (x_column gc = None ->
     generate_graph w df gc
     = mkRun ([Call df gc; Clf] ++ figure_events gc)
             (Raise (key_error "x_column")))
  /\ (forall xc, x_column gc = Some xc -> in_columns xc df = false ->
        generate_graph w df gc
        = mkRun ([Call df gc; Clf] ++ figure_events gc)
                (Raise (key_error xc)))
  /\ (forall xc bad post,
        x_column gc = Some xc -> in_columns xc df = true ->
        y_columns gc = Some (bad :: post) -> in_columns bad df = false ->
        generate_graph w df gc
        = mkRun ([Call df gc; Clf] ++ figure_events gc)
                (Raise (key_error bad))).
Proof.
  intros Hfig. split; [|split].
  - intros Hx. unfold generate_graph.
    rewrite (size_figure_ok w gc Hfig), Hx. cbn. now rewrite app_nil_r.
  - intros xc Hx Hin. apply not_in_columns_lookup in Hin.
    unfold generate_graph, df_getitem.
    rewrite (size_figure_ok w gc Hfig), Hx.
    cbn [bind emit ret getitem outcome trace app].
    rewrite Hin. cbn. now rewrite app_nil_r.
  - intros xc bad post Hx Hin Hy Hbad.
    apply in_columns_lookup in Hin as [x Hxl].
    rewrite (generate_graph_with_loop w df gc xc x _ _ _ Hfig Hx Hxl Hy
               (draw_series_missing w df gc x "" (fun _ _ _ => Clf) [] bad
                  post (fun H => False_ind _ (H eq_refl)) (Forall_nil _)
                  (Forall_nil _) Hbad)).
    cbn. now rewrite app_nil_r.
Qed.

(** X4.  A chart that is complete except for its [title], with a
    [figure_size] (if any) that [plt.figure] accepts and series that the
    drawing calls accept: all its series are drawn first, then
    [graph_config['title']] raises [KeyError]; no label is set, nothing is
    saved and the figure is not closed. *)
Theorem missing_title_raises_after_drawing w df gc k f xc x ycs :
  (forall sz, figure_size gc = Some sz -> plt_figure w sz = None) ->
  kind gc = Some k -> plotter_of k = Some f ->
  x_column gc = Some xc -> df_lookup df xc = Some x ->
  y_columns gc = Some ycs ->
  Forall (fun y => in_columns y df = true) ycs ->
  Forall (fun e => plt_draw w e = None) (drawn_series df f x ycs) ->
  title gc = None ->
  let r := generate_graph w df gc in
  r = mkRun ([Call df gc; Clf] ++ figure_events gc ++ drawn_series df f x ycs)
            (Raise (key_error "title"))
  /\ (forall p failed, ~ In (Savefig p failed) (trace r))
  /\ ~ In Close (trace r).
Proof.
  intros Hfig Hk Hf Hx Hxl Hy Hys Hacc Ht r. subst r.
  rewrite (generate_graph_with_loop w df gc xc x ycs _ _ Hfig Hx Hxl Hy
             (draw_series_supported w df gc x k f ycs Hk Hf Hys Hacc)).
  rewrite (finish_graph_no_title w gc Ht). cbn [trace outcome].
  rewrite app_nil_r.
  pose proof (drawn_series_drawing df f x ycs k Hf) as Hd.
  split; [reflexivity|]. apply (drawing_prefix_clean df gc _ Hd).
Qed.

(** X20.  When [plt.figure] rejects the [figure_size] of a chart, the
    exception leaves [generate_graph] at once: the run is the reset and
    the rejected call, no column is looked up, nothing is drawn or saved,
    and [plt.close()] is not reached. *)
Theorem rejected_figure_size_escapes w df gc sz e :
  figure_size gc = Some sz -> plt_figure w sz = Some e ->
  let r := generate_graph w df gc in
  r = mkRun [Call df gc; Clf; Figure sz] (Raise e)
  /\ series_labels (trace r) = []
  /\ (forall p failed, ~ In (Savefig p failed) (trace r))
  /\ ~ In Close (trace r).
Proof.
  intros Hs He r.
  assert (E : r = mkRun [Call df gc; Clf; Figure sz] (Raise e)).
  { subst r. unfold generate_graph, size_figure.
    rewrite !bind_emit, Hs, figure_run, He. reflexivity. }
  rewrite E. cbn [trace].
  split; [reflexivity|]. split; [reflexivity|]. split.
  - intros p failed [H|[H|[H|[]]]]; discriminate H.
  - intros [H|[H|[H|[]]]]; discriminate H.
Qed.

Lemma draw_series_rejected w df gc x k f pre bad s post e :
  kind gc = Some k -> plotter_of k = Some f ->
  Forall (fun y => in_columns y df = true) pre ->
  Forall (fun c => plt_draw w c = None) (drawn_series df f x pre) ->
  df_lookup df bad = Some s -> plt_draw w (f x s bad) = Some e ->
  draw_series w df gc x (pre ++ bad :: post)
  = mkRun (drawn_series df f x pre ++ [f x s bad]) (Raise e).
Proof.
  intros Hk Hf Hpre Hd Hs He.
  induction Hpre as [|y rest Hy _ IH].
  - cbn [app].
    rewrite (draw_series_step w df gc x k f bad s post Hk Hf Hs), draw_then, He.
    reflexivity.
  - apply in_columns_lookup in Hy as [sy Hsy].
    rewrite (drawn_series_cons df f x y sy rest Hsy) in *.
    apply Forall_cons_iff in Hd as [Hd1 Hd2].
    cbn [app].
    rewrite (draw_series_step w df gc x k f y sy _ Hk Hf Hsy), draw_then, Hd1.
    now rewrite (IH Hd2).
Qed.

(** X21.  When a drawing call ([plt.plot], [plt.scatter] or [plt.bar])
    rejects the series of one y column, after the series of the columns
    before it were drawn, the exception leaves [generate_graph]: the
    rejected call is the last thing the run does, the columns after it
    are not looked up, no title or label is set, nothing is saved and the
    figure is not closed. *)
Theorem rejected_series_escapes w df gc k f xc x pre bad s post e :
  (forall sz, figure_size gc = Some sz -> plt_figure w sz = None) ->
  kind gc = Some k -> plotter_of k = Some f ->
  x_column gc = Some xc -> df_lookup df xc = Some x ->
  y_columns gc = Some (pre ++ bad :: post) ->
  Forall (fun y => in_columns y df = true) pre ->
  Forall (fun c => plt_draw w c = None) (drawn_series df f x pre) ->
  df_lookup df bad = Some s -> plt_draw w (f x s bad) = Some e ->
  let r := generate_graph w df gc in
  r = mkRun ([Call df gc; Clf] ++ figure_events gc
             ++ drawn_series df f x pre ++ [f x s bad]) (Raise e)
  /\ series_labels (trace r) = pre ++ [bad]
  /\ (forall p failed, ~ In (Savefig p failed) (trace r))
  /\ ~ In Close (trace r).
Proof.
  intros Hfig Hk Hf Hx Hxl Hy Hpre Hacc Hs He r. subst r.
  rewrite (generate_graph_with_loop w df gc xc x _ _ _ Hfig Hx Hxl Hy
             (draw_series_rejected w df gc x k f pre bad s post e
                Hk Hf Hpre Hacc Hs He)).
  cbn [trace outcome].
  assert (Hin : in_columns bad df = true).
  { destruct (in_columns bad df) eqn:Hb; [reflexivity|].
    apply not_in_columns_lookup in Hb. congruence. }
  assert (Hall : Forall (fun y => in_columns y df = true) (pre ++ [bad])).
  { apply Forall_app. split; [exact Hpre|now constructor]. }
  assert (Hds : drawn_series df f x (pre ++ [bad])
                = drawn_series df f x pre ++ [f x s bad]).
  { unfold drawn_series. rewrite flat_map_app. cbn. now rewrite Hs. }
  pose proof (drawn_series_labels df f x _ k Hf Hall) as Hl.
  pose proof (drawn_series_drawing df f x (pre ++ [bad]) k Hf) as Hd.
  rewrite Hds in Hl, Hd.
  split; [reflexivity|]. split; [|split].
  - unfold series_labels in *. rewrite !flat_map_app.
    rewrite flat_map_app in Hl. rewrite Hl.
    unfold figure_events. destruct (figure_size gc); reflexivity.
  - apply (drawing_prefix_clean df gc _ Hd).
  - apply (drawing_prefix_clean df gc _ Hd).
Qed.

(** ** The save, the close and the output directory *)

Lemma last_snoc_inner {A} (t l : list A) (x c d : A) :
  last (t ++ x :: l ++ [c]) d = c.
Proof.
  change (t ++ x :: l ++ [c]) with (t ++ (x :: l) ++ [c]).
  rewrite app_assoc. apply last_last.
Qed.

Lemma last_save_events w p t d : last (t ++ save_events w p) d = Close.
Proof. unfold save_events. apply last_snoc_inner. Qed.

(** X5.  Whenever [generate_graph] gets as far as calling [savefig], it
    returns normally; the path is [output_file], there is exactly one save
    and exactly one close, and the close is the last thing the call does.
    If the save failed, the only line printed is the error line naming the
    path and the cause; if it succeeded, nothing is printed at all. *)
Theorem save_attempt_always_closes w df gc p failed :
  In (Savefig p failed) (trace (generate_graph w df gc)) ->
  let r := generate_graph w df gc in
  outcome r = Ret tt
  /\ output_file gc = Some p
  /\ failed = plt_savefig w p
  /\ last (trace r) Clf = Close
  /\ length (filter is_close (trace r)) = 1%nat
  /\ length (filter is_save (trace r)) = 1%nat
  /\ (forall e, failed = Some e ->
        filter is_print (trace r) = [Print (save_error_msg p e)])
  /\ (failed = None -> filter is_print (trace r) = []).
Proof.
  intros H r. subst r.
  pose proof H as H'.
  apply generate_graph_saved in H'
    as (t & xc & ycs & drawn & Ht & Hx & Hy & Ho & Hd & E).
  rewrite E in *. cbn [trace outcome] in *.
  assert (Hf : failed = plt_savefig w p).
  { apply In_chart_trace_gen in H
      as [H|[H|[H|[H|[H|[H|H]]]]]]; try discriminate.
    - unfold figure_events in H.
      destruct (figure_size gc); [destruct H as [H|[]]; discriminate|destruct H].
    - exfalso. exact (In_drawing_absurd _ (Savefig p failed) Hd eq_refl H).
    - unfold label_events in H.
      repeat (destruct H as [H|H]; [discriminate|]). destruct H.
    - unfold makedirs_events in H.
      destruct (nonempty (dirname p));
        [destruct H as [H|[]]; discriminate|destruct H].
    - unfold save_events in H.
      destruct (plt_savefig w p);
        repeat (destruct H as [H|H]; [congruence|]); destruct H. }
  split; [reflexivity|]. split; [exact Ho|]. split; [exact Hf|].
  split.
  { rewrite !app_assoc. apply last_save_events. }
  assert (Hc : filter is_close drawn = [])
    by (apply filter_none, (drawing_not is_close _), Hd;
        intros []; cbn; congruence).
  assert (Hs : filter is_save drawn = [])
    by (apply filter_none, (drawing_not is_save _), Hd;
        intros []; cbn; congruence).
  assert (Hp : filter is_print drawn = [])
    by (apply filter_none, (drawing_not is_print _), Hd;
        intros []; cbn; congruence).
  rewrite !filter_app, Hc, Hs, Hp.
  unfold figure_events, label_events, makedirs_events, save_events,
    save_error_msg.
  subst failed.
  destruct (figure_size gc), (nonempty (dirname p)), (plt_savefig w p);
    cbn; repeat split; intros; congruence.
Qed.

Lemma finish_graph_makedirs_failed w gc d e :
  In (Makedirs d (Some e)) (trace (finish_graph w gc)) ->
  exists t xc ycs out,
    title gc = Some t /\ x_column gc = Some xc /\ y_columns gc = Some ycs
    /\ output_file gc = Some out /\ d = dirname out
    /\ nonempty d = true /\ os_makedirs w d = Some e
    /\ finish_graph w gc
       = mkRun (label_events gc t xc ycs ++ [Makedirs d (Some e)]) (Raise e).
Proof.
  unfold finish_graph, label_events, makedirs, savefig.
  destruct (title gc) as [t|]; cbn; [|tauto].
  destruct (x_column gc) as [xc|]; cbn; [|intuition discriminate].
  destruct (y_columns gc) as [ycs|]; cbn; [|intuition discriminate].
  destruct (output_file gc) as [out|]; cbn; [|intuition discriminate].
  destruct (nonempty (dirname out)) eqn:Hn; cbn;
    [destruct (os_makedirs w (dirname out)) as [e'|] eqn:Hm; cbn|].
  - intros H. repeat (destruct H as [H|H]; [try discriminate|]); [|destruct H].
    injection H as <- <-. exists t, xc, ycs, out. auto 10.
  - destruct (plt_savefig w out); cbn; intros H;
      repeat (destruct H as [H|H]; [discriminate|]); destruct H.
  - destruct (plt_savefig w out); cbn; intros H;
      repeat (destruct H as [H|H]; [discriminate|]); destruct H.
Qed.

Lemma generate_graph_makedirs_failed w df gc d e :
  In (Makedirs d (Some e)) (trace (generate_graph w df gc)) ->
  exists t xc ycs out drawn,
    output_file gc = Some out /\ d = dirname out
    /\ os_makedirs w d = Some e
    /\ Forall (fun e => is_drawing e = true) drawn
    /\ generate_graph w df gc
       = mkRun ([Call df gc; Clf] ++ figure_events gc ++ drawn
                ++ label_events gc t xc ycs ++ [Makedirs d (Some e)])
               (Raise e).
Proof.
  assert (Hloop : forall td, Forall (fun e => loop_event e = true) td ->
                             ~ In (Makedirs d (Some e)) td).
  { intros td Htd Hin. rewrite Forall_forall in Htd. apply Htd in Hin.
    discriminate. }
  unfold generate_graph, size_figure, figure, figure_events, df_getitem.
  destruct (figure_size gc) as [sz|];
    [destruct (plt_figure w sz) as [fe|]|]; cbn.
  1:{ intros H. exfalso.
      repeat (destruct H as [H|H]; [discriminate|]). exact H. }
  all: (destruct (x_column gc) as [xc|] eqn:Hx; cbn; [|intuition discriminate];
     destruct (df_lookup df xc) as [x|]; cbn; [|intuition discriminate];
     destruct (y_columns gc) as [ycs|] eqn:Hy; cbn; [|intuition discriminate];
     pose proof (draw_series_events w df gc x ycs) as Hev;
     pose proof (draw_series_completed w df gc x ycs) as Hdr;
     destruct (draw_series w df gc x ycs) as [drawn [[|]|e'|c]]; cbn in *;
     intros H;
     repeat (destruct H as [H|H]; [discriminate|]);
     rewrite ?app_nil_r in H; try apply in_app_or in H;
     try (exfalso; exact (Hloop _ Hev H))).
  all: destruct H as [H|H]; [exfalso; exact (Hloop _ Hev H)|].
  all: specialize (Hdr eq_refl).
  all: apply finish_graph_makedirs_failed in H
      as (t & xc' & ycs' & out & Ht & Hx' & Hy' & Ho & Hdo & Hn & Hm & E).
  all: exists t, xc', ycs', out, drawn; rewrite E; cbn.
  all: rewrite <- ?app_assoc; auto 10.
Qed.

(** X6.  Creating the output directory is not guarded: when
    [os.makedirs] fails, its exception escapes [generate_graph], that
    failed call is the last thing the call does, nothing is saved and the
    figure is not closed. *)
Theorem makedirs_failure_escapes w df gc d e :
  In (Makedirs d (Some e)) (trace (generate_graph w df gc)) ->
  let r := generate_graph w df gc in
  outcome r = Raise e
  /\ (exists out, output_file gc = Some out /\ d = dirname out)
  /\ os_makedirs w d = Some e
  /\ last (trace r) Clf = Makedirs d (Some e)
  /\ (forall p failed, ~ In (Savefig p failed) (trace r))
  /\ ~ In Close (trace r).
Proof.
  intros H r. subst r.
  apply generate_graph_makedirs_failed in H
    as (t & xc & ycs & out & drawn & Ho & Hd & Hm & Hdr & E).
  rewrite E. cbn [trace outcome].
  split; [reflexivity|]. split; [exists out; split; assumption|].
  split; [exact Hm|]. split.
  { rewrite !app_assoc. apply last_last. }
  pose proof (drawing_prefix_clean df gc drawn Hdr) as [Hs Hc].
  cbn zeta in Hs, Hc.
  split; [intros p failed Hin|intros Hin].
  - rewrite !app_assoc in Hin. apply in_app_or in Hin as [Hin|Hin].
    + apply in_app_or in Hin as [Hin|Hin].
      * rewrite <- !app_assoc in Hin. exact (Hs _ _ Hin).
      * unfold label_events in Hin.
        repeat (destruct Hin as [Hin|Hin]; [discriminate|]). destruct Hin.
    + destruct Hin as [Hin|[]]. discriminate.
  - rewrite !app_assoc in Hin. apply in_app_or in Hin as [Hin|Hin].
    + apply in_app_or in Hin as [Hin|Hin].
      * rewrite <- !app_assoc in Hin. exact (Hc Hin).
      * unfold label_events in Hin.
        repeat (destruct Hin as [Hin|Hin]; [discriminate|]). destruct Hin.
    + destruct Hin as [Hin|[]]. discriminate.
Qed.

(** ** The output directory *)

Lemma nonempty_upto_last_sep p : nonempty (upto_last_sep p) = has_sep p.
Proof. destruct p as [|c r]; cbn; [reflexivity|]. now destruct (is_sep c || has_sep r). Qed.

Lemma nonempty_rstrip_sep s : all_sep s = false -> nonempty (rstrip_sep s) = true.
Proof. destruct s as [|c r]; [discriminate|]. cbn [rstrip_sep]. now intros ->. Qed.

Lemma nonempty_dirname p : nonempty (dirname p) = has_sep p.
Proof.
  unfold dirname. rewrite <- nonempty_upto_last_sep.
  destruct (nonempty (upto_last_sep p)) eqn:Hn; cbn; [|exact Hn].
  destruct (all_sep (upto_last_sep p)) eqn:Ha; cbn; [exact Hn|].
  now apply nonempty_rstrip_sep.
Qed.

Lemma upto_last_sep_none f : has_sep f = false -> upto_last_sep f = "".
Proof. destruct f as [|c r]; cbn; [reflexivity|]. now intros ->. Qed.

Lemma has_sep_append a f : has_sep (a ++ String "/" f) = true.
Proof.
  induction a as [|c a IH]; cbn; [reflexivity|].
  rewrite IH. apply orb_true_r.
Qed.

Lemma upto_last_sep_append a f :
  has_sep f = false -> upto_last_sep (a ++ String "/" f) = (a ++ "/")%string.
Proof.
  intros Hf. induction a as [|c a IH].
  - cbn. now rewrite (upto_last_sep_none f Hf).
  - cbn [append upto_last_sep]. cbn [has_sep].
    rewrite has_sep_append, orb_true_r, IH. reflexivity.
Qed.

Lemma all_sep_append d0 c s : is_sep c = false -> all_sep (d0 ++ String c s) = false.
Proof.
  intros Hc. induction d0 as [|a d0 IH]; cbn.
  - now rewrite Hc.
  - rewrite IH. apply andb_false_r.
Qed.

Lemma rstrip_sep_append d0 c :
  is_sep c = false -> rstrip_sep (d0 ++ String c "/") = (d0 ++ String c "")%string.
Proof.
  intros Hc. induction d0 as [|a d0 IH].
  - cbn. now rewrite Hc.
  - cbn [append rstrip_sep]. cbn [all_sep].
    rewrite (all_sep_append d0 c "/" Hc), andb_false_r, IH. reflexivity.
Qed.

Lemma append_String_assoc d0 c s :
  ((d0 ++ String c "") ++ s = d0 ++ String c s)%string.
Proof. induction d0 as [|a d0 IH]; cbn; [reflexivity|]. now rewrite IH. Qed.

(** X8.  The directory created for an output path: for a path made of a
    directory part that does not end in a slash, one slash, and a file name
    without slashes, [dirname] is the directory part. *)
Theorem dirname_of_joined_path d0 c f :
  is_sep c = false -> has_sep f = false ->
  dirname (d0 ++ String c (String "/" f)) = (d0 ++ String c "")%string.
Proof.
  intros Hc Hf. unfold dirname.
  rewrite <- (append_String_assoc d0 c (String "/" f)).
  rewrite (upto_last_sep_append _ f Hf).
  rewrite (append_String_assoc d0 c "/").
  rewrite (all_sep_append d0 c "/" Hc), (rstrip_sep_append d0 c Hc).
  destruct d0; reflexivity.
Qed.

Lemma In_makedirs_events w p d f :
  In (Makedirs d f) (makedirs_events w p) ->
  d = dirname p /\ f = os_makedirs w d /\ has_sep p = true.
Proof.
  unfold makedirs_events. rewrite nonempty_dirname.
  destruct (has_sep p); [|intros []].
  intros [H|[]]. injection H as <- <-. auto.
Qed.


(** ** The reset and the figure size *)



(** ** Loading, then rendering: whole runs of [main] *)

Lemma load_config_ok w p content d :
  open_file w p = Success content -> yaml_safe_load w content = Success d ->
  load_config w p = mkRun [] (Ret d).
Proof.
  intros Ho Hy. unfold load_config, read_config, try_except.
  rewrite Ho. cbn. rewrite Hy. reflexivity.
Qed.

Lemma load_config_returned w p d :
  outcome (load_config w p) = Ret d -> load_config w p = mkRun [] (Ret d).
Proof.
  intros H. pose proof (load_config_ret w p d H) as Hr.
  pose proof (read_config_trace w p) as Ht.
  unfold load_config, try_except in *.
  destruct (read_config w p) as [t o]. cbn in *. subst. reflexivity.
Qed.

Lemma load_dataframe_ok w p df :
  pd_read_csv w p = Success df -> load_dataframe w p = mkRun [] (Ret df).
Proof. intros H. unfold load_dataframe, try_except. now rewrite H. Qed.

Lemma matching_graphs_ok df gs :
  (forall g, In g gs -> x_column g <> None) ->
  matching_graphs df gs = mkRun [] (Ret (filter (selects df) gs)).
Proof.
  induction gs as [|g rest IH]; intros H; [reflexivity|].
  cbn [matching_graphs filter]. unfold selects at 1.
  destruct (x_column g) as [xc|] eqn:Hx;
    [|exfalso; apply (H g); [now left|exact Hx]].
  cbn [getitem]. rewrite (bind_silent _ _ xc eq_refl).
  rewrite IH by (intros g' Hg'; apply H; now right).
  rewrite (bind_silent _ _ _ eq_refl). reflexivity.
Qed.

Lemma matching_graphs_missing df gs :
  (exists g, In g gs /\ x_column g = None) ->
  matching_graphs df gs = mkRun [] (Raise (key_error "x_column")).
Proof.
  induction gs as [|g rest IH]; intros (g0 & Hin & Hx); [destruct Hin|].
  cbn [matching_graphs].
  destruct (x_column g) as [xc|] eqn:Hxg; [|reflexivity].
  cbn [getitem]. rewrite (bind_silent _ _ xc eq_refl).
  destruct Hin as [->|Hin]; [congruence|].
  rewrite IH by eauto. reflexivity.
Qed.

Lemma for_each_ret {A} (l : list A) body :
  (forall x, In x l -> outcome (body x) = Ret tt) ->
  outcome (for_each l body) = Ret tt.
Proof.
  induction l as [|x rest IH]; intros H; [reflexivity|].
  cbn [for_each]. unfold bind. rewrite (H x) by now left.
  cbn. apply IH. intros y Hy. apply H. now right.
Qed.

Lemma render_if_selected_invocations w df g :
  invocations (trace (render_if_selected w df g))
  = if selects df g then [(df, g)] else [].
Proof.
  unfold render_if_selected, selects.
  destruct (x_column g) as [xc|]; [|reflexivity].
  cbn [getitem]. rewrite (bind_silent _ _ xc eq_refl).
  destruct (in_columns xc df); [apply generate_graph_invocations|reflexivity].
Qed.

Lemma for_each_selected_invocations w df gs :
  outcome (for_each gs (render_if_selected w df)) = Ret tt ->
  invocations (trace (for_each gs (render_if_selected w df)))
  = map (pair df) (filter (selects df) gs).
Proof.
  induction gs as [|g rest IH]; cbn [for_each]; intros H; [reflexivity|].
  apply bind_ret_inv in H as ([] & _ & H & ->).
  rewrite invocations_app, render_if_selected_invocations, (IH H).
  cbn [filter]. now destruct (selects df g).
Qed.

Lemma main_input_mode w a c r :
  input a = Some (String c r) ->
  main w a
  = (config <- load_config w (config a) ;;
     df <- load_dataframe w (String c r) ;;
     graphs <- subscript_graphs config ;;
     for_each graphs (render_if_selected w df)).
Proof. intros H. unfold main. rewrite H. reflexivity. Qed.

Lemma main_default_mode w a :
  default_mode a = true ->
  main w a
  = (config <- load_config w (config a) ;;
     df_examples <- load_dataframe w "data/examples.csv" ;;
     graphs <- subscript_graphs config ;;
     examples_graphs <- matching_graphs df_examples graphs ;;
     for_each examples_graphs (generate_graph w df_examples) ;;
     df_fibonacci <- load_dataframe w "data/fibonacci.csv" ;;
     graphs <- subscript_graphs config ;;
     fibonacci_graphs <- matching_graphs df_fibonacci graphs ;;
     for_each fibonacci_graphs (generate_graph w df_fibonacci)).
Proof.
  unfold main, default_mode.
  destruct (input a) as [[|c r]|]; try reflexivity; discriminate.
Qed.

(** X10.  With [--input], on a run that completes normally,
    [generate_graph] is invoked on the given table for exactly the
    specifications whose x column the table has, once each and in
    configuration order. *)
Theorem input_mode_renders_selected w a c r gs df :
  input a = Some (String c r) ->
  outcome (load_config w (config a)) = Ret (DMapping (Some gs)) ->
  pd_read_csv w (String c r) = Success df ->
  outcome (main w a) = Ret tt ->
  invocations (trace (main w a)) = map (pair df) (filter (selects df) gs).
Proof.
  intros Hin Hcfg Hdf H.
  rewrite (main_input_mode w a c r Hin) in *.
  rewrite (bind_silent _ _ _ (load_config_returned _ _ _ Hcfg)) in *.
  rewrite (bind_silent _ _ _ (load_dataframe_ok _ _ _ Hdf)) in *.
  rewrite (bind_silent (subscript_graphs (DMapping (Some gs))) _ gs eq_refl)
    in *.
  now apply for_each_selected_invocations.
Qed.

(** X11.  With [--input], nothing but the given file is read as a
    table: what [pd.read_csv] would answer for any other path, the default
    tables included, has no influence on the run. *)
Theorem input_mode_ignores_other_tables w a c r rc :
  input a = Some (String c r) ->
  rc (String c r) = pd_read_csv w (String c r) ->
  main (with_read_csv w rc) a = main w a.
Proof.
  intros Hin Hrc.
  rewrite !(main_input_mode _ a c r Hin).
  unfold load_dataframe. cbn [pd_read_csv with_read_csv]. rewrite Hrc.
  reflexivity.
Qed.

(** X12.  With an empty [graphs] list and tables that load, [main]
    completes normally without any effect: no chart is attempted, nothing
    is printed, no file is written. *)
Theorem empty_graphs_is_silent w a content :
  open_file w (config a) = Success content ->
  yaml_safe_load w content = Success (DMapping (Some [])) ->
  (forall p, In p (datasets a) -> exists df, pd_read_csv w p = Success df) ->
  main w a = mkRun [] (Ret tt).
Proof.
  intros Ho Hy Hd.
  pose proof (load_config_ok w _ _ _ Ho Hy) as Hc.
  unfold datasets in Hd.
  destruct (input a) as [[|c r]|] eqn:Hin.
  2:{ rewrite (main_input_mode w a c r Hin).
      destruct (Hd (String c r)) as [df Hdf]; [now left|].
      rewrite (bind_silent _ _ _ Hc).
      rewrite (bind_silent _ _ _ (load_dataframe_ok _ _ _ Hdf)).
      reflexivity. }
  all: rewrite (main_default_mode w a)
    by (unfold default_mode; now rewrite Hin).
  all: destruct (Hd "data/examples.csv") as [ex Hex]; [now left|].
  all: destruct (Hd "data/fibonacci.csv") as [fib Hfib]; [right; now left|].
  all: rewrite (bind_silent _ _ _ Hc).
  all: rewrite (bind_silent _ _ _ (load_dataframe_ok _ _ _ Hex)).
  all: cbn [subscript_graphs getitem matching_graphs for_each].
  all: rewrite !(bind_silent (ret _) _ _ eq_refl).
  all: rewrite (bind_silent _ _ _ (load_dataframe_ok _ _ _ Hfib)).
  all: reflexivity.
Qed.

(** X13.  A configuration that parses but holds no [graphs] list is not
    reported as a configuration error: once the first table has loaded, the
    subscript [config['graphs']] raises, [KeyError] for a mapping without
    the key and [TypeError] for anything that is not a mapping, and the
    exception escapes [main] with nothing printed. *)
Theorem config_without_graphs_crashes w a content doc df :
  open_file w (config a) = Success content ->
  yaml_safe_load w content = Success doc ->
  (forall gs, doc <> DMapping (Some gs)) ->
  pd_read_csv w (first_dataset a) = Success df ->
  exists e,
    main w a = mkRun [] (Raise e)
    /\ (doc = DMapping None -> e = key_error "graphs")
    /\ (doc <> DMapping None -> cls e = TypeError).
Proof.
  intros Ho Hy Hdoc Hdf.
  pose proof (load_config_ok w _ _ _ Ho Hy) as Hc.
  assert (Hm : main w a =
    (df <- load_dataframe w (first_dataset a) ;;
     (_ <- subscript_graphs doc ;; ret tt))).
  { unfold main, first_dataset. rewrite (bind_silent _ _ _ Hc).
    destruct doc as [| | |[gs|]]; [| | |exfalso; now apply (Hdoc gs)|];
      destruct (input a) as [[|ch r]|]; reflexivity. }
  rewrite Hm, (bind_silent _ _ _ (load_dataframe_ok _ _ _ Hdf)).
  destruct doc as [| | |[gs|]]; [| | |exfalso; now apply (Hdoc gs)|];
    eexists; (split; [reflexivity|]); split;
    intros; try discriminate; try reflexivity; congruence.
Qed.

(** X14.  In default mode the specifications are filtered before any is
    rendered: if any entry of [graphs] lacks the key [x_column], the list
    comprehension raises [KeyError] and the run ends without a single chart
    attempted, well-formed entries listed before it included. *)
Theorem default_mode_missing_x_column_renders_nothing w a content gs ex :
  default_mode a = true ->
  open_file w (config a) = Success content ->
  yaml_safe_load w content = Success (DMapping (Some gs)) ->
  pd_read_csv w "data/examples.csv" = Success ex ->
  (exists g, In g gs /\ x_column g = None) ->
  main w a = mkRun [] (Raise (key_error "x_column")).
Proof.
  intros Hmode Ho Hy Hex Hbad.
  rewrite (main_default_mode w a Hmode).
  rewrite (bind_silent _ _ _ (load_config_ok w _ _ _ Ho Hy)).
  rewrite (bind_silent _ _ _ (load_dataframe_ok _ _ _ Hex)).
  rewrite (bind_silent (subscript_graphs (DMapping (Some gs))) _ gs eq_refl).
  rewrite (matching_graphs_missing ex gs Hbad). reflexivity.
Qed.

Lemma for_each_app {A} (l1 l2 : list A) body :
  outcome (for_each l1 body) = Ret tt ->
  for_each (l1 ++ l2) body
  = mkRun (trace (for_each l1 body) ++ trace (for_each l2 body))
          (outcome (for_each l2 body)).
Proof.
  induction l1 as [|x rest IH]; cbn [for_each app]; intros H.
  - now destruct (for_each l2 body).
  - unfold bind in *. destruct (outcome (body x)) as [[]|e|c]; cbn in *;
      try discriminate.
    rewrite (IH H). cbn. now rewrite app_assoc.
Qed.

Lemma render_if_selected_ret w df g :
  x_column g <> None ->
  (selects df g = true -> outcome (generate_graph w df g) = Ret tt) ->
  outcome (render_if_selected w df g) = Ret tt.
Proof.
  unfold render_if_selected, selects. intros Hx Hg.
  destruct (x_column g) as [xc|]; [|congruence].
  cbn [getitem]. rewrite (bind_silent _ _ xc eq_refl).
  destruct (in_columns xc df); [now apply Hg|reflexivity].
Qed.

(** X15.  With [--input] the test is made inside the loop: the entries
    listed before one that lacks [x_column] are rendered as usual, and the
    [KeyError] escapes [main] only when the loop reaches that entry. *)
Theorem input_mode_missing_x_column_stops_midway
        w a c r content pre bad post df :
  input a = Some (String c r) ->
  open_file w (config a) = Success content ->
  yaml_safe_load w content = Success (DMapping (Some (pre ++ bad :: post))) ->
  pd_read_csv w (String c r) = Success df ->
  (forall g, In g pre ->
     x_column g <> None
     /\ (selects df g = true -> outcome (generate_graph w df g) = Ret tt)) ->
  x_column bad = None ->
  outcome (main w a) = Raise (key_error "x_column")
  /\ invocations (trace (main w a)) = map (pair df) (filter (selects df) pre).
Proof.
  intros Hin Ho Hy Hdf Hpre Hbad.
  rewrite (main_input_mode w a c r Hin).
  rewrite (bind_silent _ _ _ (load_config_ok w _ _ _ Ho Hy)).
  rewrite (bind_silent _ _ _ (load_dataframe_ok _ _ _ Hdf)).
  rewrite (bind_silent (subscript_graphs (DMapping (Some (pre ++ bad :: post))))
             _ (pre ++ bad :: post) eq_refl).
  assert (Hok : outcome (for_each pre (render_if_selected w df)) = Ret tt).
  { apply for_each_ret. intros g Hg. destruct (Hpre g Hg).
    now apply render_if_selected_ret. }
  rewrite (for_each_app pre (bad :: post) _ Hok). cbn [trace outcome].
  assert (Hb : for_each (bad :: post) (render_if_selected w df)
               = mkRun [] (Raise (key_error "x_column"))).
  { cbn [for_each]. unfold render_if_selected at 1. rewrite Hbad. reflexivity. }
  rewrite Hb. cbn [trace outcome]. rewrite app_nil_r.
  split; [reflexivity|]. now apply for_each_selected_invocations.
Qed.

Lemma for_each_generate_ret w df l :
  (forall g, In g l -> outcome (generate_graph w df g) = Ret tt) ->
  outcome (for_each l (generate_graph w df)) = Ret tt.
Proof. apply for_each_ret. Qed.

(** X16.  In default mode the second table is loaded only after the
    charts of the first have been rendered: when [data/fibonacci.csv]
    fails to load, the run exits with status 1 after every selected chart
    of [data/examples.csv] was rendered, and the error line is the last
    thing it does. *)
Theorem fibonacci_failure_after_examples_rendered
        w a content gs ex e :
  default_mode a = true ->
  open_file w (config a) = Success content ->
  yaml_safe_load w content = Success (DMapping (Some gs)) ->
  pd_read_csv w "data/examples.csv" = Success ex ->
  (forall g, In g gs -> x_column g <> None) ->
  (forall g, In g gs -> selects ex g = true ->
             outcome (generate_graph w ex g) = Ret tt) ->
  pd_read_csv w "data/fibonacci.csv" = Failure e ->
  outcome (main w a) = Exit 1
  /\ invocations (trace (main w a)) = map (pair ex) (filter (selects ex) gs)
  /\ exists msg, last (trace (main w a)) Clf = Print msg.
Proof.
  intros Hmode Ho Hy Hex Hx Hok Hfib.
  rewrite (main_default_mode w a Hmode).
  rewrite (bind_silent _ _ _ (load_config_ok w _ _ _ Ho Hy)).
  rewrite (bind_silent _ _ _ (load_dataframe_ok _ _ _ Hex)).
  rewrite (bind_silent (subscript_graphs (DMapping (Some gs))) _ gs eq_refl).
  rewrite (bind_silent _ _ _ (matching_graphs_ok ex gs Hx)).
  assert (Hloop : outcome (for_each (filter (selects ex) gs)
                             (generate_graph w ex)) = Ret tt).
  { apply for_each_ret. intros g Hg. apply filter_In in Hg as [Hg Hs].
    now apply Hok. }
  destruct (load_dataframe_failed w _ e Hfib) as [msg Hl].
  match goal with
  | |- outcome ?m = _ /\ _ =>
      assert (Hrun : m = mkRun (trace (for_each (filter (selects ex) gs)
                                         (generate_graph w ex))
                                ++ [Print msg]) (Exit 1))
        by (unfold bind; rewrite Hloop; cbn; rewrite Hl; reflexivity);
      rewrite Hrun
  end.
  cbn [trace outcome].
  split; [reflexivity|]. split.
  - rewrite invocations_app.
    rewrite (for_each_generate_invocations _ _ _ Hloop).
    cbn. now rewrite app_nil_r.
  - exists msg. apply last_last.
Qed.

(** X17.  [load_config] handles two exception classes only: any other
    exception raised while opening or parsing the configuration (a
    permission error, say) escapes [load_config] and then [main] unchanged,
    with nothing printed and no table read. *)
Theorem load_config_reraises_other_errors w a e :
  outcome (read_config w (config a)) = Raise e ->
  cls e <> FileNotFoundError -> cls e <> YAMLError ->
  load_config w (config a) = mkRun [] (Raise e)
  /\ main w a = mkRun [] (Raise e).
Proof.
  intros Hr Hf Hy.
  assert (Hl : load_config w (config a) = mkRun [] (Raise e)).
  { pose proof (read_config_trace w (config a)) as Ht.
    unfold load_config, try_except. rewrite Hr, Ht.
    destruct (cls e); try reflexivity; congruence. }
  split; [exact Hl|].
  unfold main. rewrite Hl. reflexivity.
Qed.

(** X18.  When the configuration fails to load, [main] does nothing
    else: the run is the one error line of [load_config], either the
    not-found line with the path or the parse line with the parser's text,
    and exit status 1. *)
Theorem config_failure_stops_main w a :
  config_load_fails w (config a) ->
  exists msg,
    main w a = mkRun [Print msg] (Exit 1)
    /\ load_config w (config a) = mkRun [Print msg] (Exit 1)
    /\ (msg = config_not_found_msg (config a)
        \/ exists d, msg = config_parse_msg d).
Proof.
  intros (e & Hr & Hc).
  pose proof (read_config_trace w (config a)) as Ht.
  assert (Hl : exists msg,
             load_config w (config a) = mkRun [Print msg] (Exit 1)
             /\ (msg = config_not_found_msg (config a)
                 \/ exists d, msg = config_parse_msg d)).
  { unfold load_config, try_except. rewrite Hr, Ht.
    destruct Hc as [Hc|Hc]; rewrite Hc; cbn; eexists;
      (split; [reflexivity|]); [now left|right; now exists (detail e)]. }
  destruct Hl as (msg & Hl & Hmsg).
  exists msg. split; [|split; assumption].
  unfold main. rewrite Hl. reflexivity.
Qed.

Lemma bind_same_calls {A B} (m m' : Run A) (f f' : A -> Run B) :
  same_calls m m' -> (forall a, same_calls (f a) (f' a)) ->
  same_calls (bind m f) (bind m' f').
Proof.
  intros [Ht Ho] Hf. unfold same_calls, bind. rewrite <- Ho.
  destruct (outcome m) as [a|e|c]; cbn; auto.
  destruct (Hf a) as [Hft Hfo].
  rewrite !invocations_app, Ht, Hft. auto.
Qed.

Lemma same_calls_refl {A} (m : Run A) : same_calls m m.
Proof. split; reflexivity. Qed.

Lemma for_each_same_calls {A} (l : list A) body body' :
  (forall x, same_calls (body x) (body' x)) ->
  same_calls (for_each l body) (for_each l body').
Proof.
  intros Hb. induction l as [|x rest IH]; cbn [for_each].
  - apply same_calls_refl.
  - apply bind_same_calls; auto.
Qed.

Lemma generate_graph_same_calls w sf df gc :
  same_calls (generate_graph (with_savefig w sf) df gc)
             (generate_graph w df gc).
Proof.
  split.
  - now rewrite !generate_graph_invocations.
  - apply generate_graph_outcome_savefig.
Qed.

(** X19.  What [savefig] answers never changes which charts are
    attempted nor how the run ends: under any other save behaviour [main]
    invokes [generate_graph] on the same tables and specifications in the
    same order and ends with the same outcome. *)
Theorem save_results_never_change_what_is_rendered w sf a :
  invocations (trace (main (with_savefig w sf) a))
  = invocations (trace (main w a))
  /\ outcome (main (with_savefig w sf) a) = outcome (main w a).
Proof.
  change (same_calls (main (with_savefig w sf) a) (main w a)).
  unfold main.
  apply bind_same_calls; [apply same_calls_refl|intros cfg].
  destruct (input a) as [[|ch r]|].
  2:{ apply bind_same_calls; [apply same_calls_refl|intros df].
      apply bind_same_calls; [apply same_calls_refl|intros gs].
      apply for_each_same_calls. intros g.
      apply bind_same_calls; [apply same_calls_refl|intros xc].
      destruct (in_columns xc df);
        [apply generate_graph_same_calls|apply same_calls_refl]. }
  all: apply bind_same_calls; [apply same_calls_refl|intros ex].
  all: apply bind_same_calls; [apply same_calls_refl|intros gs].
  all: apply bind_same_calls; [apply same_calls_refl|intros sel].
  all: apply bind_same_calls;
    [apply for_each_same_calls; intros g;
     apply generate_graph_same_calls|intros _].
  all: apply bind_same_calls; [apply same_calls_refl|intros fib].
  all: apply bind_same_calls; [apply same_calls_refl|intros gs'].
  all: apply bind_same_calls; [apply same_calls_refl|intros sel'].
  all: apply for_each_same_calls; intros g;
    apply generate_graph_same_calls.
Qed.

(** ** Concrete runs for the properties above *)

Lemma supported_chart_run_witness :
  plotter_of "scatter" = Some Scatter
  /\ series_labels
       (trace (generate_graph (sample_world DNull) examples_df scatter_spec))
     = ["value"; "n"].
Proof.
  split; [reflexivity|].
  refine (proj1 (proj2
    (supported_chart_run (sample_world DNull) examples_df scatter_spec
       "scatter" Scatter "n" [Num 1; Num 2; Num 3] ["value"; "n"]
       "Cloud" "cloud.png" _ eq_refl eq_refl eq_refl eq_refl eq_refl _ _
       eq_refl eq_refl _))).
  - intros sz H. injection H as <-. reflexivity.
  - repeat constructor.
  - cbv. repeat constructor.
  - intros H. discriminate H.
Defined.

Lemma missing_y_column_raises_witness :
  in_columns "total" examples_df = false
  /\ outcome (generate_graph (sample_world DNull) examples_df
                partly_missing_spec)
     = Raise (key_error "total")
  /\ series_labels
       (trace (generate_graph (sample_world DNull) examples_df
                 partly_missing_spec))
     = ["value"].
Proof.
  split; [reflexivity|].
  destruct (missing_y_column_raises (sample_world DNull) examples_df
              partly_missing_spec "line" (fun x y l => Plot x y None l)
              "n" [Num 1; Num 2; Num 3] ["value"] "total" ["n"]
              (fun sz H => ltac:(discriminate H))
              eq_refl eq_refl eq_refl eq_refl eq_refl
              ltac:(repeat constructor) ltac:(cbv; repeat constructor)
              eq_refl)
    as (E & L & _).
  split; [now rewrite E|exact L].
Defined.

Lemma column_lookups_precede_dispatch_witness :
  supported "pie" = false
  /\ generate_graph (sample_world DNull) examples_df pie_missing_spec
     = mkRun [Call examples_df pie_missing_spec; Clf]
             (Raise (key_error "total")).
Proof.
  split; [reflexivity|].
  exact (proj2 (proj2 (column_lookups_precede_dispatch (sample_world DNull)
                         examples_df pie_missing_spec
                         (fun sz H => ltac:(discriminate H))))
           "n" "total" [] eq_refl eq_refl eq_refl eq_refl).
Defined.

Lemma missing_title_raises_after_drawing_witness :
  outcome (generate_graph (sample_world DNull) examples_df untitled_spec)
  = Raise (key_error "title").
Proof.
  destruct (missing_title_raises_after_drawing (sample_world DNull)
              examples_df untitled_spec "line" (fun x y l => Plot x y None l)
              "n" [Num 1; Num 2; Num 3] ["value"]
              (fun sz H => ltac:(discriminate H))
              eq_refl eq_refl eq_refl eq_refl eq_refl
              ltac:(repeat constructor) ltac:(cbv; repeat constructor)
              eq_refl)
    as (E & _).
  now rewrite E.
Defined.

Lemma save_attempt_always_closes_witness :
  let r := generate_graph (sample_world DNull) examples_df bar_spec in
  In (Savefig "out/values.xyz" (Some unknown_format)) (trace r)
  /\ outcome r = Ret tt
  /\ last (trace r) Clf = Close
  /\ filter is_print (trace r)
     = [Print (save_error_msg "out/values.xyz" unknown_format)].
Proof.
  intros r.
  assert (H : In (Savefig "out/values.xyz" (Some unknown_format)) (trace r)).
  { vm_compute. repeat (first [left; reflexivity | right]). }
  split; [exact H|].
  destruct (save_attempt_always_closes (sample_world DNull) examples_df
              bar_spec "out/values.xyz" (Some unknown_format) H)
    as (Ho & _ & _ & Hl & _ & _ & Hp & _).
  split; [exact Ho|]. split; [exact Hl|]. exact (Hp unknown_format eq_refl).
Defined.

Lemma makedirs_failure_escapes_witness :
  let r := generate_graph (readonly_world DNull) examples_df shared_spec in
  In (Makedirs "out" (Some access_denied)) (trace r)
  /\ outcome r = Raise access_denied
  /\ ~ In Close (trace r).
Proof.
  intros r.
  assert (H : In (Makedirs "out" (Some access_denied)) (trace r)).
  { vm_compute. repeat (first [left; reflexivity | right]). }
  split; [exact H|].
  destruct (makedirs_failure_escapes (readonly_world DNull) examples_df
              shared_spec "out" access_denied H)
    as (Ho & _ & _ & _ & _ & Hc).
  split; [exact Ho|exact Hc].
Defined.


Lemma dirname_of_joined_path_witness :
  dirname "out/plots/x.png" = "out/plots".
Proof.
  exact (dirname_of_joined_path "out/plot" "s"%char "x.png" eq_refl eq_refl).
Defined.

Lemma input_mode_renders_selected_witness :
  invocations
    (trace (main (sample_world (graphs_doc [shared_spec; pie_spec; abc_spec]))
                 examples_args))
  = [(examples_df, shared_spec); (examples_df, pie_spec)].
Proof.
  refine (input_mode_renders_selected
            (sample_world (graphs_doc [shared_spec; pie_spec; abc_spec]))
            examples_args "d"%char "ata/examples.csv"
            [shared_spec; pie_spec; abc_spec] examples_df
            eq_refl _ eq_refl _); vm_compute; reflexivity.
Defined.

Lemma input_mode_ignores_other_tables_witness :
  main (no_fibonacci_world (graphs_doc [shared_spec])) examples_args
  = main (sample_world (graphs_doc [shared_spec])) examples_args.
Proof.
  exact (input_mode_ignores_other_tables
           (sample_world (graphs_doc [shared_spec])) examples_args
           "d"%char "ata/examples.csv" _ eq_refl eq_refl).
Defined.

Lemma empty_graphs_is_silent_witness :
  main (sample_world (graphs_doc [])) default_args = mkRun [] (Ret tt).
Proof.
  apply (empty_graphs_is_silent (sample_world (graphs_doc [])) default_args
           "graphs: ..."); try reflexivity.
  intros p [<-|[<-|[]]]; eexists; reflexivity.
Defined.

Lemma config_without_graphs_crashes_witness :
  exists e,
    main (sample_world (DMapping None)) default_args = mkRun [] (Raise e)
    /\ e = key_error "graphs".
Proof.
  destruct (config_without_graphs_crashes (sample_world (DMapping None))
              default_args "graphs: ..." (DMapping None) examples_df
              eq_refl eq_refl (fun gs H => ltac:(discriminate H)) eq_refl)
    as (e & E & K & _).
  exists e. split; [exact E|exact (K eq_refl)].
Defined.

Lemma default_mode_missing_x_column_renders_nothing_witness :
  main (sample_world (graphs_doc [shared_spec; no_x_spec])) default_args
  = mkRun [] (Raise (key_error "x_column")).
Proof.
  apply (default_mode_missing_x_column_renders_nothing
           (sample_world (graphs_doc [shared_spec; no_x_spec])) default_args
           "graphs: ..." [shared_spec; no_x_spec] examples_df);
    try reflexivity.
  exists no_x_spec. split; [right; now left|reflexivity].
Defined.

Lemma input_mode_missing_x_column_stops_midway_witness :
  let r := main (sample_world (graphs_doc [shared_spec; no_x_spec; pie_spec]))
                examples_args in
  outcome r = Raise (key_error "x_column")
  /\ invocations (trace r) = [(examples_df, shared_spec)].
Proof.
  apply (input_mode_missing_x_column_stops_midway
           (sample_world (graphs_doc [shared_spec; no_x_spec; pie_spec]))
           examples_args "d"%char "ata/examples.csv" "graphs: ..."
           [shared_spec] no_x_spec [pie_spec] examples_df);
    try reflexivity.
  intros g [<-|[]]. split; [discriminate|]. intros _. vm_compute. reflexivity.
Defined.

Lemma fibonacci_failure_after_examples_rendered_witness :
  let r := main (no_fibonacci_world (graphs_doc [shared_spec])) default_args in
  outcome r = Exit 1
  /\ invocations (trace r) = [(examples_df, shared_spec)].
Proof.
  destruct (fibonacci_failure_after_examples_rendered
              (no_fibonacci_world (graphs_doc [shared_spec])) default_args
              "graphs: ..." [shared_spec] examples_df
              (no_such_file "data/fibonacci.csv")
              eq_refl eq_refl eq_refl eq_refl) as (Ho & Hi & _).
  - intros g [<-|[]]. discriminate.
  - intros g [<-|[]] _. vm_compute. reflexivity.
  - reflexivity.
  - split; [exact Ho|exact Hi].
Defined.

Lemma load_config_reraises_other_errors_witness :
  main locked_config_world default_args = mkRun [] (Raise access_denied).
Proof.
  apply (load_config_reraises_other_errors locked_config_world default_args
           access_denied); [reflexivity|discriminate|discriminate].
Defined.

Lemma config_failure_stops_main_witness :
  exists msg,
    main (sample_world DNull) (mkArgs None "missing.yaml")
    = mkRun [Print msg] (Exit 1).
Proof.
  destruct (config_failure_stops_main (sample_world DNull)
              (mkArgs None "missing.yaml")) as (msg & E & _).
  - exists (no_such_file "missing.yaml"). split; [reflexivity|now left].
  - exists msg. exact E.
Defined.

Lemma rejected_figure_size_escapes_witness :
  generate_graph (sample_world DNull) examples_df oversized_spec
  = mkRun [Call examples_df oversized_spec; Clf; Figure [-1; 2]]
          (Raise bad_figure_size).
Proof.
  exact (proj1 (rejected_figure_size_escapes (sample_world DNull) examples_df
                  oversized_spec [-1; 2] bad_figure_size eq_refl eq_refl)).
Defined.

Lemma rejected_series_escapes_witness :
  generate_graph no_bars_world examples_df values_bar_spec
  = mkRun [Call examples_df values_bar_spec; Clf;
           Bar [Num 1; Num 2; Num 3] [Num 2; Num 4; Num 6] "value"]
          (Raise incompatible_bar).
Proof.
  exact (proj1 (rejected_series_escapes no_bars_world examples_df
                  values_bar_spec "bar" Bar "n" [Num 1; Num 2; Num 3]
                  [] "value" [Num 2; Num 4; Num 6] ["n"] incompatible_bar
                  (fun sz H => ltac:(discriminate H))
                  eq_refl eq_refl eq_refl eq_refl eq_refl
                  (Forall_nil _) (Forall_nil _) eq_refl eq_refl)).
Defined.
